(** * amicitizen_serv: the blacklist service of [main.go]

    A shallow embedding of the request handlers, the update orchestrator
    and the fetch-decode-ingest pipeline of [main.go], with the parts of
    the Go libraries they call (strings, time, bolt, io, net/http)
    modelled as far as the program observes them.

    Go strings are byte sequences: they are [string]s here, one [ascii]
    per byte, and [String.length] is Go's [len]. *)

From Stdlib Require Import ZArith NArith Ascii String List Bool Lia.
From stdpp Require Import base option gmap strings list fin_maps.

Import ListNotations.
Local Open Scope string_scope.
Local Open Scope list_scope.

(** ** Errors *)

(** Go [error] values.  [io_EOF] is the sentinel the pipeline compares
    against; every other error carries the package it comes from and
    its text. *)
Inductive origin : Type := pkg_bolt | pkg_bzip2 | pkg_http | pkg_time.

Inductive error : Type :=
| io_EOF
| Err (o : origin) (msg : string).

Definition Error (e : error) : string :=
  match e with
  | io_EOF => "EOF"
  | Err _ msg => msg
  end.

(** [err != nil] *)
Definition notNil (err : option error) : bool :=
  match err with
  | Some _ => true
  | None => false
  end.

(** [rdrErr == io.EOF] *)
Definition is_EOF (e : error) : bool :=
  match e with
  | io_EOF => true
  | Err _ _ => false
  end.

(** ** Package strings *)

Module Strings.

Definition bytes (l : list N) : string :=
  fold_right (fun n s => String (ascii_of_N n) s) EmptyString l.

(** The UTF-8 encodings of the runes for which [unicode.IsSpace]
    holds: the six ASCII ones, U+0085, U+00A0, and the White_Space
    range table (U+1680, U+2000..U+200A, U+2028, U+2029, U+202F,
    U+205F, U+3000). *)
Definition spaceRunes : list string :=
  map bytes
    [ [9]; [10]; [11]; [12]; [13]; [32];
      [194; 133]; [194; 160];
      [225; 154; 128];
      [226; 128; 128]; [226; 128; 129]; [226; 128; 130]; [226; 128; 131];
      [226; 128; 132]; [226; 128; 133]; [226; 128; 134]; [226; 128; 135];
      [226; 128; 136]; [226; 128; 137]; [226; 128; 138];
      [226; 128; 168]; [226; 128; 169]; [226; 128; 175];
      [226; 129; 159];
      [227; 128; 128] ]%N.

Fixpoint stripPrefix (p s : string) : option string :=
  match p, s with
  | EmptyString, _ => Some s
  | String a p', String b s' =>
      if Ascii.eqb a b then stripPrefix p' s' else None
  | String _ _, EmptyString => None
  end.

Fixpoint firstStrip (rs : list string) (s : string) : option string :=
  match rs with
  | [] => None
  | r :: rs' =>
      match stripPrefix r s with
      | Some s' => Some s'
      | None => firstStrip rs' s
      end
  end.

(** [TrimLeftFunc(s, unicode.IsSpace)]: drop leading space runes.
    The fuel is the byte length, and every stripped rune has at
    least one byte. *)
Fixpoint trimLeftRunes (rs : list string) (fuel : nat) (s : string) : string :=
  match fuel with
  | O => s
  | S fuel' =>
      match firstStrip rs s with
      | Some s' => trimLeftRunes rs fuel' s'
      | None => s
      end
  end.

Definition TrimLeft (s : string) : string :=
  trimLeftRunes spaceRunes (String.length s) s.

Definition reverse (s : string) : string :=
  string_of_list_ascii (List.rev (list_ascii_of_string s)).

(** [TrimRightFunc(s, unicode.IsSpace)]: the last rune is a space
    exactly when one of the encodings is a suffix (a continuation
    byte never starts one of them), so trimming on the right is
    trimming the reversed string by the reversed encodings. *)
Definition TrimRight (s : string) : string :=
  reverse
    (trimLeftRunes (map reverse spaceRunes) (String.length s) (reverse s)).

Definition TrimSpace (s : string) : string := TrimRight (TrimLeft s).

End Strings.

(** ** Package bolt *)

(** A bucket maps byte-string keys to byte-string values; a database is
    a set of named buckets.  [tx.Bucket(name) == nil] is [None]. *)
Abbreviation Bucket := (gmap string string).
Abbreviation DB := (gmap string (gmap string string)).

Module Bolt.

Definition MaxKeySize : Z := 32768.
Definition MaxValueSize : Z := 2147483646.

Definition ErrKeyRequired : error := Err pkg_bolt "key required".
Definition ErrKeyTooLarge : error := Err pkg_bolt "key too large".
Definition ErrValueTooLarge : error := Err pkg_bolt "value too large".

(** [b.Get(key)], read through [string(v)]: a missing key gives the
    nil slice, which converts to the empty string. *)
Definition Get (b : Bucket) (key : string) : string :=
  match b !! key with
  | Some v => v
  | None => ""
  end.

(** [b.Put(key, value)] in a writable transaction. *)
Definition Put (b : Bucket) (key value : string) : Bucket * option error :=
  if Z.eqb (Z.of_nat (String.length key)) 0 then (b, Some ErrKeyRequired)
  else if Z.ltb MaxKeySize (Z.of_nat (String.length key)) then (b, Some ErrKeyTooLarge)
  else if Z.ltb MaxValueSize (Z.of_nat (String.length value)) then (b, Some ErrValueTooLarge)
  else (<[key := value]> b, None).

(** [tx.CreateBucketIfNotExists(name)] for a non-empty name in a
    database whose root holds buckets only: it cannot fail. *)
Definition CreateBucketIfNotExists (d : DB) (name : string) : Bucket :=
  match d !! name with
  | Some b => b
  | None => ∅
  end.

(** What the storage layer does to one transaction: nothing, an
    error when the transaction begins ([db.Begin]), or an error when
    it ends ([tx.Commit], [tx.Rollback]). *)
Inductive fault : Type :=
| Healthy
| BeginFails (e : error)
| EndFails (e : error).

End Bolt.

(** ** The program's state *)

(** [type Status int] with its three constants. *)
Inductive Status : Type := ready | processing | failed.

(** What the program does to the outside: sends on its channels,
    goroutines it starts, requests it issues. *)
Inductive event : Type :=
| Recv_syncedStatus (s : Status)
| Send_syncedStatus (s : Status)
| Send_lastStatus (s : Status)
| Go_updateRequired
| Http_HEAD
| Http_GET.

(** The database file, the storage faults still to come (one per
    transaction, none once the list is used up), the status the
    [syncedStatus] channel currently hands out, and the events so far.

    The goroutines [syncStatus] and [syncHelper] are taken as what they
    implement: a cell that holds the last status sent on [lastStatus]
    and gives it to whoever receives from [syncedStatus]. *)
Record World : Type := mkWorld {
  db : DB;
  faults : list Bolt.fault;
  synced : Status;
  trace : list event
}.

Definition M (A : Type) : Type := World -> A * World.

#[global] Instance M_ret : MRet M := fun A a w => (a, w).
#[global] Instance M_bind : MBind M :=
  fun A B f m w => let (a, w') := m w in f a w'.

Definition emit (e : event) : M unit :=
  fun w => (tt, mkWorld (db w) (faults w) (synced w) (trace w ++ [e])).

Definition nextFault : M Bolt.fault :=
  fun w =>
    match faults w with
    | [] => (Bolt.Healthy, w)
    | f :: fs => (f, mkWorld (db w) fs (synced w) (trace w))
    end.

Definition readDB : M DB := fun w => (db w, w).

Definition writeDB (d : DB) : M unit :=
  fun w => (tt, mkWorld d (faults w) (synced w) (trace w)).

(** [db.View(fn)]: begin a read-only transaction, run [fn], roll back.
    [fn] reads the database and updates the variables it captured
    (their values are [captured] before and the first component of
    the result after); it does not run when the transaction cannot
    begin. *)
Definition db_View {A : Type} (fn : DB -> A -> A * option error) (captured : A)
  : M (A * option error) :=
  f ← nextFault;
  match f with
  | Bolt.BeginFails e => mret (captured, Some e)
  | _ =>
      d ← readDB;
      let (a, ferr) := fn d captured in
      match ferr with
      | Some e => mret (a, Some e)
      | None =>
          match f with
          | Bolt.EndFails e => mret (a, Some e)
          | _ => mret (a, None)
          end
      end
  end.

(** [db.Update(fn)]: begin a writable transaction, run [fn], commit if
    it returned nil and roll back otherwise.  Nothing of a transaction
    that did not commit is visible. *)
Definition db_Update (fn : DB -> DB * option error) : M (option error) :=
  f ← nextFault;
  match f with
  | Bolt.BeginFails e => mret (Some e)
  | _ =>
      d ← readDB;
      let (d', ferr) := fn d in
      match ferr with
      | Some e => mret (Some e)
      | None =>
          match f with
          | Bolt.EndFails e => mret (Some e)
          | _ => writeDB d';; mret None
          end
      end
  end.

(** [lastStatus <- s]: the status register takes the value. *)
Definition send_lastStatus (s : Status) : M unit :=
  fun w => (tt, mkWorld (db w) (faults w) s (trace w ++ [Send_lastStatus s])).

(** [go func(c chan bool) { c <- true }(updateRequired)] *)
Definition go_send_updateRequired : M unit := emit Go_updateRequired.

(** ** Package time *)

Inductive result (A : Type) : Type :=
| Ok (a : A)
| Fail (e : error).
Arguments Ok {A} a.
Arguments Fail {A} e.

Module Time.

(** [time.RFC1123] *)
Definition RFC1123 : string := "Mon, 02 Jan 2006 15:04:05 MST".

(** Instants are seconds since the Unix epoch: the layout has no
    finer unit.  [t.After(u)]. *)
Definition After (t u : Z) : bool := Z.ltb u t.

Definition digit (c : ascii) : option Z :=
  if (Ascii.leb "0" c && Ascii.leb c "9")%bool
  then Some (Z.of_N (N_of_ascii c) - 48)%Z else None.

Fixpoint number (n : nat) (acc : Z) (s : string) : option (Z * string) :=
  match n with
  | O => Some (acc, s)
  | S n' =>
      match s with
      | EmptyString => None
      | String c s' => d ← digit c; number n' (10 * acc + d)%Z s'
      end
  end.

Fixpoint lookup (names : list string) (i : Z) (s : string) : option (Z * string) :=
  match names with
  | [] => None
  | nm :: names' =>
      match Strings.stripPrefix nm s with
      | Some s' => Some (i, s')
      | None => lookup names' (i + 1)%Z s
      end
  end.

Definition shortDayNames : list string :=
  ["Sun"; "Mon"; "Tue"; "Wed"; "Thu"; "Fri"; "Sat"].
Definition shortMonthNames : list string :=
  ["Jan"; "Feb"; "Mar"; "Apr"; "May"; "Jun";
   "Jul"; "Aug"; "Sep"; "Oct"; "Nov"; "Dec"].

Definition isLeap (year : Z) : bool :=
  ((year mod 4 =? 0) && (negb (year mod 100 =? 0) || (year mod 400 =? 0)))%Z%bool.

Definition daysIn (month year : Z) : Z :=
  (if (month =? 2) && isLeap year then 29
   else if month =? 2 then 28
   else if (month =? 4) || (month =? 6) || (month =? 9) || (month =? 11) then 30
   else 31)%Z%bool.

(** Days from 1970-01-01 to a date of the proleptic Gregorian
    calendar. *)
Definition daysFromCivil (year month day : Z) : Z :=
  (let y := if month <=? 2 then year - 1 else year in
   let era := y / 400 in
   let yoe := y - era * 400 in
   let mp := if month <=? 2 then month + 9 else month - 3 in
   let doy := (153 * mp + 2) / 5 + day - 1 in
   let doe := yoe * 365 + yoe / 4 - yoe / 100 + doy in
   era * 146097 + doe - 719468)%Z.

Definition upper (c : ascii) : bool := (Ascii.leb "A" c && Ascii.leb c "Z")%bool.

(** A zone abbreviation as the layout's [MST] accepts it: three
    upper-case letters, or four that end in [T]. *)
Definition zoneName (s : string) : bool :=
  match s with
  | String a (String b (String c EmptyString)) => upper a && upper b && upper c
  | String a (String b (String c (String d EmptyString))) =>
      upper a && upper b && upper c && Ascii.eqb d "T"
  | _ => false
  end.

(** [time.Parse(time.RFC1123, value)] on the strings the layout
    formats to (two-digit fields, single spaces), on a host whose
    local zone is UTC: a zone abbreviation the local zone does not
    define keeps the clock reading as it is.  It accepts less than
    Go does: names are matched with their case, the hour has two
    digits, there are no fractional seconds, and a zone is three
    upper-case letters or four that end in [T].  The properties of
    the orchestrator are stated for any parser; this one serves the
    sample runs. *)
Definition parseRFC1123 (value : string) : option Z :=
  '(_, v) ← lookup shortDayNames 0 value;
  v ← Strings.stripPrefix ", " v;
  '(day, v) ← number 2 0 v;
  v ← Strings.stripPrefix " " v;
  '(mon, v) ← lookup shortMonthNames 1 v;
  v ← Strings.stripPrefix " " v;
  '(year, v) ← number 4 0 v;
  v ← Strings.stripPrefix " " v;
  '(hour, v) ← number 2 0 v;
  v ← Strings.stripPrefix ":" v;
  '(min, v) ← number 2 0 v;
  v ← Strings.stripPrefix ":" v;
  '(sec, v) ← number 2 0 v;
  v ← Strings.stripPrefix " " v;
  if (zoneName v && (1 <=? day) && (day <=? daysIn mon year)
      && (hour <? 24) && (min <? 60) && (sec <? 60))%Z%bool
  then Some (daysFromCivil year mon day * 86400 + hour * 3600 + min * 60 + sec)%Z
  else None.

Definition Parse (layout value : string) : result Z :=
  if String.eqb layout RFC1123 then
    match parseRFC1123 value with
    | Some t => Ok t
    | None => Fail (Err pkg_time ("parsing time " ++ value))
    end
  else Fail (Err pkg_time "layout not modelled").

End Time.

(** ** Package net/http *)

Record Request : Type := mkRequest {
  Method : string;
  Body : string;            (* what [ioutil.ReadAll(req.Body)] returns *)
  ReadErr : option error    (* and its error *)
}.

Record Response : Type := mkResponse {
  StatusCode : Z;
  Written : string
}.

Definition StatusOK : Z := 200.
Definition StatusBadRequest : Z := 400.
Definition StatusUnprocessableEntity : Z := 422.
Definition StatusInternalServerError : Z := 500.
Definition MethodPost : string := "POST".

Definition newline : ascii := "010"%char.

(** [http.Error(res, msg, code)] writes the message and a newline. *)
Definition http_Error (msg : string) (code : Z) : Response :=
  mkResponse code (msg ++ String newline "").

(** [res.Write(text)] on a fresh response: status 200. *)
Definition res_Write (text : string) : Response := mkResponse StatusOK text.

(** ** The query handler *)

Definition isBlacklisted (num : string) : M (bool * option error) :=
  db_View
    (fun d (blacklisted : bool) =>
       match d !! "passports" with
       | None => (blacklisted, None)
       | Some b =>
           let v := Bolt.Get b (Strings.TrimSpace num) in
           if String.eqb v "" then (blacklisted, None)
           else (true, None)
       end)
    false.

Definition handlePassportValid (req : Request) : M Response :=
  if negb (String.eqb (Method req) MethodPost) then
    mret (http_Error "Only POST accepted" StatusBadRequest)
  else
    match ReadErr req with
    | Some err => mret (http_Error (Error err) StatusBadRequest)
    | None =>
        let bodyStr := Body req in
        if Nat.ltb (String.length bodyStr) 9 then
          mret (http_Error "Passport number too short" StatusUnprocessableEntity)
        else
          '(blacklisted, err) ← isBlacklisted bodyStr;
          match err with
          | Some e => mret (http_Error (Error e) StatusInternalServerError)
          | None =>
              match blacklisted with
              | false => mret (res_Write "valid")
              | true => mret (res_Write "invalid")
              end
          end
    end.

(** ** The update trigger *)

(** [status := <-syncedStatus] and [syncedStatus <- status]: the value
    is taken from the register and handed back. *)
Definition recv_syncedStatus : M Status :=
  fun w => (synced w,
            mkWorld (db w) (faults w) (synced w)
                    (trace w ++ [Recv_syncedStatus (synced w)])).

Definition send_syncedStatus (s : Status) : M unit := emit (Send_syncedStatus s).

Definition kickstartUpdate : M Response :=
  status ← recv_syncedStatus;
  send_syncedStatus status;;
  match status with
  | ready | failed =>
      go_send_updateRequired;;
      mret (res_Write "Checking remote for updated dataset")
  | processing =>
      mret (res_Write "Update is already in progress")
  end.

(** ** The store writers *)

(** The loop of [saveToDB] over the bucket: a line is put only where
    [Get] reads the empty string; the first failing [Put] ends it. *)
Fixpoint putLines (lines : list string) (b : Bucket) : Bucket * option error :=
  match lines with
  | [] => (b, None)
  | l :: rest =>
      let v := Bolt.Get b (Strings.TrimSpace l) in
      if String.eqb v "" then
        let (b', err) := Bolt.Put b (Strings.TrimSpace l) "1" in
        match err with
        | Some e => (b', Some e)
        | None => putLines rest b'
        end
      else putLines rest b
  end.

Definition saveToDB (lines : list string) : M (option error) :=
  db_Update
    (fun d =>
       let b := Bolt.CreateBucketIfNotExists d "passports" in
       let (b', err) := putLines lines b in
       (<["passports" := b']> d, err)).

(** [now] is [time.Now().Format(time.RFC1123)].  The result of [Put]
    is not looked at. *)
Definition setLastUpdated (now : string) : M (option error) :=
  db_Update
    (fun d =>
       let b := Bolt.CreateBucketIfNotExists d "ustatus" in
       let (b', _) := Bolt.Put b "updated" now in
       (<["ustatus" := b']> d, None)).

(** ** The pipeline *)

(** The decompressed feed as the read loop sees it: the bytes that
    [reader.Read] delivers one at a time, then the error that ends the
    loop ([io.EOF] or a decompression error). *)
Record Stream : Type := mkStream {
  data : string;
  rdrErr : error
}.

(** The remote side during one update: what [http.NewRequest] says of
    the address, the [Last-Modified] header of the HEAD response, the
    body of the GET response, and the clock. *)
Record Remote : Type := mkRemote {
  http_NewRequest : option error;
  http_Head : result string;
  http_Get : result Stream;
  time_Now : string
}.

(** The variables of the read loop. *)
Record Loop : Type := mkLoop {
  line : string;
  lines : list string;
  linesRead : nat;
  savedLines : nat
}.

Definition Loop0 : Loop := mkLoop "" [] 0 0.

Definition isDigit (c : ascii) : bool := (Ascii.leb "0" c && Ascii.leb c "9")%bool.

(** The [switch] on the byte read. *)
Definition scanByte (c : ascii) (st : Loop) : Loop :=
  if isDigit c then
    mkLoop (line st ++ String c "") (lines st) (linesRead st) (savedLines st)
  else if Ascii.eqb c newline then
    if negb (String.eqb (line st) "") then
      mkLoop "" (lines st ++ [line st]) (S (linesRead st)) (S (savedLines st))
    else
      mkLoop (line st) (lines st) (S (linesRead st)) (savedLines st)
  else st.

(** The [if savedLines >= 1000] after it; what [saveToDB] returns is
    dropped. *)
Definition flushFull (st : Loop) : M Loop :=
  if Nat.leb 1000 (savedLines st) then
    saveToDB (lines st);;
    mret (mkLoop (line st) [] (linesRead st) 0)
  else mret st.

Fixpoint readLoop (input : string) (st : Loop) : M Loop :=
  match input with
  | EmptyString => mret st
  | String c rest =>
      st' ← flushFull (scanByte c st);
      readLoop rest st'
  end.

Definition downloadUpdate (remote : Remote) : M (bool * option error) :=
  emit Http_GET;;
  match http_Get remote with
  | Fail err => mret (false, Some err)
  | Ok resp =>
      st ← readLoop (data resp) Loop0;
      err ← (if Nat.ltb 0 (List.length (lines st))
             then saveToDB (lines st) else mret None);
      match err with
      | Some e => mret (false, Some e)
      | None =>
          if negb (is_EOF (rdrErr resp)) then mret (false, Some (rdrErr resp))
          else
            err ← setLastUpdated (time_Now remote);
            match err with
            | Some e => mret (false, Some e)
            | None => mret (true, None)
            end
      end
  end.

(** ** The orchestrator *)

Section Orchestrator.

(** [time.Parse] *)
Variable Parse : string -> string -> result Z.

(** The error of [db.View] is overwritten by the one of
    [time.Parse]. *)
Definition remoteUpdated (remoteTime : Z) : M (bool * option error) :=
  let outdated := true in
  '(lastUpdStr, _) ←
    db_View
      (fun d (lastUpdStr : string) =>
         match d !! "ustatus" with
         | None => (lastUpdStr, None)
         | Some b =>
             let v := Bolt.Get b "updated" in
             if String.eqb v "" then (lastUpdStr, None)
             else (v, None)
         end)
      Time.RFC1123;
  match Parse Time.RFC1123 lastUpdStr with
  | Fail err => mret (outdated, Some err)
  | Ok lastUpdTime =>
      if negb (Time.After remoteTime lastUpdTime) then mret (false, None)
      else mret (outdated, None)
  end.

Definition performUpdate (remote : Remote) : M unit :=
  match http_NewRequest remote with
  | Some _ => send_lastStatus failed
  | None =>
      emit Http_HEAD;;
      match http_Head remote with
      | Fail _ => send_lastStatus failed
      | Ok lastModified =>
          let modified := Strings.TrimSpace lastModified in
          match Parse Time.RFC1123 modified with
          | Fail _ => send_lastStatus failed
          | Ok t =>
              '(outdated, err) ← remoteUpdated t;
              if notNil err then send_lastStatus failed
              else if (outdated || notNil err)%bool then
                send_lastStatus processing;;
                '(success, err) ← downloadUpdate remote;
                if (notNil err || negb success)%bool then
                  send_lastStatus failed;;
                  go_send_updateRequired
                else send_lastStatus ready
              else mret tt
          end
      end
  end.

End Orchestrator.

(** ** The signal loop and the scheduler *)

Section SignalLoop.

(** [time.Parse] *)
Variable Parse : string -> string -> result Z.

(** [updateManager] over the signals it consumes: one [performUpdate]
    per signal received from [updateRequired], each with the remote
    side as it is at that moment. *)
Fixpoint updateManager (consumed : list Remote) : M unit :=
  match consumed with
  | [] => mret tt
  | remote :: rest =>
      performUpdate Parse remote;;
      updateManager rest
  end.

End SignalLoop.

(** Conversion to [int64]: the value modulo 2^64, in the signed
    range. *)
Definition int64 (z : Z) : Z := ((z + 2 ^ 63) mod 2 ^ 64 - 2 ^ 63)%Z.

(** [time.Hour], in nanoseconds. *)
Definition time_Hour : Z := 3600000000000.

(** [time.Duration(int64(time.Hour) * int64(period))], the argument of
    [time.Sleep] in [updateScheduller]. *)
Definition sleepDuration (period : Z) : Z :=
  int64 (int64 time_Hour * int64 period).

(** [time.Sleep(d)]: the pause in nanoseconds; a duration that is zero
    or negative returns at once. *)
Definition time_Sleep (d : Z) : Z := Z.max 0 d.

(** * Vocabulary of the properties *)

(** ** The store *)

(** What a read of the [passports] namespace finds under a key, and
    the answer of the lookup for an identifier. *)
Definition stored (d : DB) (key : string) : string :=
  match d !! "passports" with
  | None => ""
  | Some b => Bolt.Get b key
  end.

Definition blacklisted_in (d : DB) (num : string) : bool :=
  negb (String.eqb (stored d (Strings.TrimSpace num)) "").

(** An entry of the [passports] namespace. *)
Definition present (d : DB) (key : string) : Prop :=
  exists b v, d !! "passports" = Some b /\ b !! key = Some v.

(** The entries of the [passports] namespace under a key. *)
Definition entries (d : DB) (key : string) : list (string * string) :=
  match d !! "passports" with
  | None => []
  | Some b => filter (fun kv : string * string => kv.1 = key) (map_to_list b)
  end.

(** The presence markers are not empty (the program writes ["1"]). *)
Definition markers (d : DB) : Prop :=
  forall b key, d !! "passports" = Some b -> b !! key <> Some "".

(** The value under [ustatus]/[updated], empty when there is none. *)
Definition lastUpdated (d : DB) : string :=
  match d !! "ustatus" with
  | None => ""
  | Some b => Bolt.Get b "updated"
  end.

(** A key [Put] accepts. *)
Definition keyOK (key : string) : Prop :=
  0 < String.length key /\ (Z.of_nat (String.length key) <= Bolt.MaxKeySize)%Z.

(** ** Transactions and their faults *)

(** The world once the next transaction has used up its fault. *)
Definition afterTx (w : World) : World :=
  mkWorld (db w) (tail (faults w)) (synced w) (trace w).

(** The next transaction meets no storage error. *)
Definition healthyNext (w : World) : Prop :=
  head (faults w) = None \/ head (faults w) = Some Bolt.Healthy.

(** The next transaction gets to run its function. *)
Definition beginsNext (w : World) : Prop :=
  forall e, head (faults w) <> Some (Bolt.BeginFails e).

Ltac run :=
  unfold mbind, M_bind, mret, M_ret, nextFault, readDB, writeDB, emit; simpl.

(** ** Requests and events *)

(** A request that passes the checks of the query handler. *)
Definition validRequest (req : Request) : Prop :=
  Method req = MethodPost /\ ReadErr req = None /\ 9 <= String.length (Body req).

(** The characters of a body in UTF-8: its bytes without the
    continuation bytes (binary 10xxxxxx), one per encoded rune. *)
Definition isContinuation (c : ascii) : bool :=
  let n := N_of_ascii c in ((128 <=? n) && (n <? 192))%N%bool.

Fixpoint characters (s : string) : nat :=
  match s with
  | EmptyString => 0
  | String c s' => if isContinuation c then characters s' else S (characters s')
  end.

Definition isRecv (e : event) : bool :=
  match e with
  | Recv_syncedStatus _ => true
  | _ => false
  end.

Definition isSignal (e : event) : bool :=
  match e with
  | Go_updateRequired => true
  | _ => false
  end.

(** How often the status was read, and how many refresh signals were
    handed to a goroutine. *)
Definition statusReads (t : list event) : nat := List.length (List.filter isRecv t).
Definition signals (t : list event) : nat := List.length (List.filter isSignal t).

(** ** Tokens *)

Fixpoint digitsOnly (s : string) : bool :=
  match s with
  | EmptyString => true
  | String c s' => isDigit c && digitsOnly s'
  end.

(** The read loop without its flushes: what the [switch] does to the
    loop variables over a whole input. *)
Fixpoint scan (input : string) (st : Loop) : Loop :=
  match input with
  | EmptyString => st
  | String c rest => scan rest (scanByte c st)
  end.

(** The tokens a feed yields. *)
Definition tokens (input : string) : list string := lines (scan input Loop0).

(** The digit bytes of a string, in order. *)
Fixpoint digitsOf (s : string) : string :=
  match s with
  | EmptyString => EmptyString
  | String c s' => if isDigit c then String c (digitsOf s') else digitsOf s'
  end.

(** The lines of a feed that a newline ends, without the newline;
    [cur] is the part of the current line read so far. *)
Fixpoint completeLines (input cur : string) : list string :=
  match input with
  | EmptyString => []
  | String c rest =>
      if Ascii.eqb c newline then cur :: completeLines rest ""
      else completeLines rest (cur ++ String c "")
  end.

Definition nonEmpty (s : string) : bool := negb (String.eqb s "").

(** [t] occurs in [s] as a run of adjacent bytes. *)
Fixpoint occursIn (t s : string) : bool :=
  match Strings.stripPrefix t s with
  | Some _ => true
  | None =>
      match s with
      | EmptyString => false
      | String _ s' => occursIn t s'
      end
  end.

(** * Sample stores, feeds and requests *)

(** An empty store without faults, status [ready]. *)
Definition sampleWorld : World := mkWorld ∅ [] ready [].

(** A store that holds one identifier. *)
Definition storeWith (key : string) : World :=
  mkWorld {[ "passports" := {[ key := "1" ]} ]} [] ready [].

(** A store with a timestamp of half past noon. *)
Definition stampedStore : World :=
  mkWorld {[ "ustatus" := {[ "updated" := "Sat, 31 Oct 2026 12:30:00 UTC" ]} ]}
          [] ready [].

(** A store whose timestamp does not parse. *)
Definition unreadableTimestamp : World :=
  mkWorld {[ "ustatus" := {[ "updated" := "yesterday" ]} ]} [] ready [].

Definition diskFull : error := Err pkg_bolt "write: no space left on device".
Definition notOpen : error := Err pkg_bolt "database not open".

(** A store whose next commit fails. *)
Definition failingCommit : World := mkWorld ∅ [Bolt.EndFails diskFull] ready [].

(** A store with a timestamp whose next transaction cannot begin. *)
Definition failingRead : World :=
  mkWorld {[ "ustatus" := {[ "updated" := "Sat, 31 Oct 2026 12:00:00 UTC" ]} ]}
          [Bolt.BeginFails notOpen] ready [].

(** 31 October 2026, 12:00:00 UTC. *)
Definition noon : Z := 1793448000.

Definition query (id : string) : Request := mkRequest "POST" id None.

(** Eight digits and a space: nine bytes. *)
Definition paddedRequest : Request := query "12345678 ".

Definition feedLine (id : string) : string := id ++ String newline "".

Fixpoint feedOf (n : nat) (id : string) : string :=
  match n with
  | O => ""
  | S n' => feedLine id ++ feedOf n' id
  end.

Definition mergedFeed : string := feedLine "12a34".

(** A feed modified at noon, one line, read to its end. *)
Definition goodFeed : Remote :=
  mkRemote None (Ok "Sat, 31 Oct 2026 12:00:00 GMT")
           (Ok (mkStream (feedLine "123456789") io_EOF))
           "Sat, 31 Oct 2026 12:30:00 UTC".

(** The same feed, with a decompression error after the line. *)
Definition brokenFeed : Remote :=
  mkRemote None (Ok "Sat, 31 Oct 2026 12:00:00 GMT")
           (Ok (mkStream (feedLine "123456789") (Err pkg_bzip2 "bzip2 data invalid")))
           "Sat, 31 Oct 2026 12:30:00 UTC".

(** A feed of one full batch: 1000 lines. *)
Definition fullBatchFeed : Remote :=
  mkRemote None (Ok "Sat, 31 Oct 2026 12:00:00 GMT")
           (Ok (mkStream (feedOf 1000 "123456789") io_EOF))
           "Sat, 31 Oct 2026 12:30:00 UTC".

(** A feed last modified in 2005. *)
Definition oldFeed : Remote :=
  mkRemote None (Ok "Sat, 01 Jan 2005 00:00:00 GMT")
           (Ok (mkStream (feedLine "123456789") io_EOF))
           "Sat, 31 Oct 2026 12:30:00 UTC".

(** A feed that cannot be reached. *)
Definition unreachableFeed : Remote :=
  mkRemote None (Fail (Err pkg_http "dial tcp: connection refused"))
           (Fail (Err pkg_http "dial tcp: connection refused"))
           "Sat, 31 Oct 2026 13:00:00 UTC".

(** Seven digits and U+00E9 (two bytes in UTF-8): eight characters,
    nine bytes. *)
Definition accentedBody : string := "1234567" ++ Strings.bytes [195; 169]%N.

(** * Vocabulary of the further properties *)

Definition isGET (e : event) : bool :=
  match e with
  | Http_GET => true
  | _ => false
  end.

(** How many downloads were started. *)
Definition downloads (t : list event) : nat := List.length (List.filter isGET t).

(** The status the register holds after some events. *)
Fixpoint statusAfter (s : Status) (ev : list event) : Status :=
  match ev with
  | [] => s
  | Send_lastStatus s' :: rest => statusAfter s' rest
  | _ :: rest => statusAfter s rest
  end.

(** What one [performUpdate] can add to the trace. *)
Definition updateShapes : list (list event) :=
  [ [Send_lastStatus failed];
    [Http_HEAD; Send_lastStatus failed];
    [Http_HEAD];
    [Http_HEAD; Send_lastStatus processing; Http_GET; Send_lastStatus ready];
    [Http_HEAD; Send_lastStatus processing; Http_GET; Send_lastStatus failed;
     Go_updateRequired] ].

(** The probe of [performUpdate] fails: the request cannot be built,
    the HEAD request fails, or the [Last-Modified] header does not
    parse. *)
Definition probeFails (Parse : string -> string -> result Z) (remote : Remote) : Prop :=
  (exists e, http_NewRequest remote = Some e) \/
  (exists e, http_Head remote = Fail e) \/
  (exists hdr e, http_Head remote = Ok hdr /\
                 Parse Time.RFC1123 (Strings.TrimSpace hdr) = Fail e).

(** The six ASCII bytes of [unicode.IsSpace]. *)
Definition asciiSpace (c : ascii) : bool :=
  let n := N_of_ascii c in ((9 <=? n) && (n <=? 13) || (n =? 32))%N%bool.

Fixpoint spacesOnly (s : string) : bool :=
  match s with
  | EmptyString => true
  | String c s' => asciiSpace c && spacesOnly s'
  end.

Fixpoint noNewline (s : string) : bool :=
  match s with
  | EmptyString => true
  | String c s' => negb (Ascii.eqb c newline) && noNewline s'
  end.

(** The newline bytes of a feed. *)
Fixpoint newlines (s : string) : nat :=
  match s with
  | EmptyString => 0
  | String c s' => if Ascii.eqb c newline then S (newlines s') else newlines s'
  end.

(** The digits read since the last newline or the last emitted
    token. *)
Definition pendingOf (input : string) : string := line (scan input Loop0).

(** Every entry that is in the store of [w] is in the store of [w'],
    with its value. *)
Definition keepsEntries (w w' : World) : Prop :=
  forall k, stored (db w) k <> "" -> stored (db w') k = stored (db w) k.

(** The timestamp is as in [w], and so are the entries of [w]. *)
Definition onlyIngests (w w' : World) : Prop :=
  lastUpdated (db w') = lastUpdated (db w) /\ keepsEntries w w'.

(** The world in which [performUpdate] starts its download, and the
    world it leaves once the download has returned. *)
Definition startDownload (w : World) : World :=
  mkWorld (db w) (tail (faults w)) processing
          (trace w ++ [Http_HEAD; Send_lastStatus processing]).

Definition finishDownload (res : bool * option error * World) : World :=
  let '((success, err), w) := res in
  if (notNil err || negb success)%bool
  then mkWorld (db w) (faults w) failed
               (trace w ++ [Send_lastStatus failed; Go_updateRequired])
  else mkWorld (db w) (faults w) ready (trace w ++ [Send_lastStatus ready]).

(** One [saveToDB] per batch, in order, whatever each returns. *)
Fixpoint commitBatches (batches : list (list string)) : M unit :=
  match batches with
  | [] => mret tt
  | b :: rest => saveToDB b;; commitBatches rest
  end.

(** What [downloadUpdate] does once the read loop has ended with the
    buffer [ls] and the error [rdrErr]. *)
Definition afterLoop (now : string) (rdrErr : error) (ls : list string)
  : M (bool * option error) :=
  err ← (if Nat.ltb 0 (List.length ls) then saveToDB ls else mret None);
  match err with
  | Some e => mret (false, Some e)
  | None =>
      if negb (is_EOF rdrErr) then mret (false, Some rdrErr)
      else
        err ← setLastUpdated now;
        match err with
        | Some e => mret (false, Some e)
        | None => mret (true, None)
        end
  end.

(** The string the staleness check parses as the time of the last
    update: the stored timestamp, or the layout string when there is
    none or when the read transaction cannot begin. *)
Definition comparedWith (d : DB) : string :=
  if String.eqb (lastUpdated d) "" then Time.RFC1123 else lastUpdated d.

Definition timestampRead (w : World) : string :=
  match head (faults w) with
  | Some (Bolt.BeginFails _) => Time.RFC1123
  | _ => comparedWith (db w)
  end.

(** * Further samples *)

(** A feed whose HEAD response has no [Last-Modified] header. *)
Definition headerless : Remote :=
  mkRemote None (Ok "") (Ok (mkStream (feedLine "123456789") io_EOF))
           "Sat, 31 Oct 2026 12:30:00 UTC".

(** * Properties *)

(** ** Reading the store *)

Lemma nextFault_spec (w : World) :
  nextFault w = (default Bolt.Healthy (head (faults w)), afterTx w).
Proof.
  unfold nextFault, afterTx. destruct w as [d [|f fs] s t]; reflexivity.
Qed.

Lemma db_Update_spec (fn : DB -> DB * option error) (w : World) :
  db_Update fn w =
    match default Bolt.Healthy (head (faults w)) with
    | Bolt.BeginFails e => (Some e, afterTx w)
    | f =>
        match fn (db w) with
        | (_, Some e) => (Some e, afterTx w)
        | (d', None) =>
            match f with
            | Bolt.EndFails e => (Some e, afterTx w)
            | _ => (None, mkWorld d' (tail (faults w)) (synced w) (trace w))
            end
        end
    end.
Proof.
  unfold db_Update. unfold mbind, M_bind. rewrite nextFault_spec.
  destruct (default Bolt.Healthy (head (faults w))); run;
    destruct (fn (db w)) as [d' [e'|]]; reflexivity.
Qed.

Lemma db_View_spec {A : Type} (fn : DB -> A -> A * option error) (a : A) (w : World) :
  db_View fn a w =
    match default Bolt.Healthy (head (faults w)) with
    | Bolt.BeginFails e => ((a, Some e), afterTx w)
    | f =>
        match fn (db w) a with
        | (a', Some e) => ((a', Some e), afterTx w)
        | (a', None) =>
            match f with
            | Bolt.EndFails e => ((a', Some e), afterTx w)
            | _ => ((a', None), afterTx w)
            end
        end
    end.
Proof.
  unfold db_View. unfold mbind, M_bind. rewrite nextFault_spec.
  destruct (default Bolt.Healthy (head (faults w))); run;
    destruct (fn (db w) a) as [a' [e'|]]; reflexivity.
Qed.

Lemma healthyNext_default (w : World) :
  healthyNext w -> default Bolt.Healthy (head (faults w)) = Bolt.Healthy.
Proof. intros [-> | ->]; reflexivity. Qed.

Lemma isBlacklisted_db (num : string) (w : World) :
  snd (isBlacklisted num w) = afterTx w.
Proof.
  unfold isBlacklisted, db_View. unfold mbind, M_bind. rewrite nextFault_spec.
  destruct (default Bolt.Healthy (head (faults w))); run;
    destruct (db w !! "passports") as [b|]; try reflexivity;
    destruct (String.eqb _ ""); reflexivity.
Qed.

Lemma isBlacklisted_healthy (num : string) (w : World) :
  healthyNext w ->
  isBlacklisted num w = ((blacklisted_in (db w) num, None), afterTx w).
Proof.
  intros H. unfold isBlacklisted, db_View. unfold mbind, M_bind.
  rewrite nextFault_spec.
  assert (Hf : default Bolt.Healthy (head (faults w)) = Bolt.Healthy)
    by (destruct H as [-> | ->]; reflexivity).
  rewrite Hf. run. unfold blacklisted_in, stored.
  destruct (db w !! "passports") as [b|]; [|reflexivity].
  destruct (String.eqb _ ""); reflexivity.
Qed.

Lemma blacklisted_in_present (d : DB) (num : string) :
  markers d ->
  blacklisted_in d num = true <-> present d (Strings.TrimSpace num).
Proof.
  intros Hm. unfold blacklisted_in, stored, present, Bolt.Get.
  destruct (d !! "passports") as [b|] eqn:Hb.
  - destruct (b !! Strings.TrimSpace num) as [v|] eqn:Hv.
    + split; [intros _; eauto|intros _].
      destruct (String.eqb_spec v ""); [|reflexivity].
      subst v. exfalso. exact (Hm b _ Hb Hv).
    + split; [discriminate|]. intros (b' & v & Hb' & Hv'). congruence.
  - split; [discriminate|]. intros (b' & v & Hb' & _). discriminate.
Qed.

(** ** The query handler: validation *)

(** A body of 9 bytes or more, read without error, goes to the
    lookup: the response is made from what [isBlacklisted] returns. *)
Lemma handlePassportValid_lookup (req : Request) (w : World) :
  Method req = MethodPost -> ReadErr req = None ->
  9 <= String.length (Body req) ->
  handlePassportValid req w =
    (match fst (isBlacklisted (Body req) w) with
     | (_, Some e) => http_Error (Error e) StatusInternalServerError
     | (false, None) => res_Write "valid"
     | (true, None) => res_Write "invalid"
     end,
     snd (isBlacklisted (Body req) w)) /\
  snd (isBlacklisted (Body req) w) = afterTx w.
Proof.
  intros Hm Hr Hlen. split; [|apply isBlacklisted_db].
  unfold handlePassportValid. rewrite Hm, String.eqb_refl, Hr. simpl.
  destruct (Nat.ltb_spec (String.length (Body req)) 9); [lia|].
  unfold mbind, M_bind.
  destruct (isBlacklisted (Body req) w) as [[bl [e|]] w']; simpl;
    destruct bl; reflexivity.
Qed.

(** The claim C7 as stated fails: the length that is checked is the
    number of bytes, not of characters.  A POST body of seven digits
    and U+00E9 has 8 characters and 9 bytes; it is not answered with
    422 but looked up, and on the empty store the answer is 200 with
    the text "valid". *)
Lemma eight_characters_pass_validation :
  characters accentedBody = 8 /\
  String.length accentedBody = 9 /\
  handlePassportValid (query accentedBody) sampleWorld
    = (res_Write "valid", sampleWorld) /\
  StatusCode (fst (handlePassportValid (query accentedBody) sampleWorld)) <> 422%Z.
Proof. repeat split. vm_compute. discriminate. Qed.

(** C7, amended.  Request validation of [POST /], with the length of
    the body counted in bytes: a method other than POST is answered
    with 400; a POST body of at most 8 bytes with 422; in both cases
    nothing is looked up and the state is as before.  A POST body of 9
    bytes or more goes to the store lookup, whose outcome decides the
    response. *)
Theorem request_validation (req : Request) (w : World) :
  (Method req <> MethodPost ->
   StatusCode (fst (handlePassportValid req w)) = 400%Z /\
   snd (handlePassportValid req w) = w) /\
  (Method req = MethodPost -> ReadErr req = None ->
   String.length (Body req) <= 8 ->
   StatusCode (fst (handlePassportValid req w)) = 422%Z /\
   snd (handlePassportValid req w) = w) /\
  (Method req = MethodPost -> ReadErr req = None ->
   9 <= String.length (Body req) ->
   handlePassportValid req w =
     (match fst (isBlacklisted (Body req) w) with
      | (_, Some e) => http_Error (Error e) StatusInternalServerError
      | (false, None) => res_Write "valid"
      | (true, None) => res_Write "invalid"
      end,
      snd (isBlacklisted (Body req) w)) /\
   snd (isBlacklisted (Body req) w) = afterTx w).
Proof.
  unfold handlePassportValid. repeat split.
  - destruct (String.eqb_spec (Method req) MethodPost); [contradiction|reflexivity].
  - destruct (String.eqb_spec (Method req) MethodPost); [contradiction|reflexivity].
  - rewrite H, String.eqb_refl, H0. simpl.
    destruct (Nat.ltb_spec (String.length (Body req)) 9); [reflexivity|lia].
  - rewrite H, String.eqb_refl, H0. simpl.
    destruct (Nat.ltb_spec (String.length (Body req)) 9); [reflexivity|lia].
  - rewrite H, String.eqb_refl, H0. simpl.
    destruct (Nat.ltb_spec (String.length (Body req)) 9); [lia|].
    unfold mbind, M_bind.
    destruct (isBlacklisted (Body req) w) as [[bl [e|]] w']; simpl;
      destruct bl; reflexivity.
  - apply isBlacklisted_db.
Qed.

Lemma request_validation_witness :
  StatusCode (fst (handlePassportValid (mkRequest "POST" "12345678" None) sampleWorld))
    = 422%Z /\
  snd (handlePassportValid (mkRequest "POST" "12345678" None) sampleWorld)
    = sampleWorld.
Proof.
  destruct (request_validation (mkRequest "POST" "12345678" None) sampleWorld)
    as (_ & H & _).
  apply H; [reflexivity|reflexivity|simpl; lia].
Defined.

(** ** The query handler: trimming after validation *)

(** C10. The minimum of 9 is checked on the raw body and the lookup
    uses the trimmed body: a body of 9 bytes or more whose trimmed form
    is shorter is not answered with 422; the store is read, and with no
    storage error the answer is the one for the trimmed identifier. *)
Theorem short_identifier_passes_when_padded (req : Request) (w : World) :
  Method req = MethodPost ->
  ReadErr req = None ->
  9 <= String.length (Body req) ->
  String.length (Strings.TrimSpace (Body req)) < 9 ->
  StatusCode (fst (handlePassportValid req w)) <> 422%Z /\
  snd (handlePassportValid req w) = afterTx w /\
  (healthyNext w ->
   fst (handlePassportValid req w) =
     res_Write
       (if String.eqb (stored (db w) (Strings.TrimSpace (Body req))) ""
        then "valid" else "invalid")).
Proof.
  intros Hm Hr Hlen _.
  destruct (handlePassportValid_lookup req w Hm Hr Hlen) as [Heq Hw].
  rewrite Heq. simpl. split; [|split].
  - destruct (fst (isBlacklisted (Body req) w)) as [[|] [e|]]; simpl; discriminate.
  - exact Hw.
  - intros Hh. rewrite (isBlacklisted_healthy _ _ Hh). simpl.
    unfold blacklisted_in.
    destruct (String.eqb _ ""); reflexivity.
Qed.

Lemma short_identifier_passes_when_padded_witness :
  String.length (Body paddedRequest) = 9 /\
  Strings.TrimSpace (Body paddedRequest) = "12345678" /\
  fst (handlePassportValid paddedRequest (storeWith "12345678")) = res_Write "invalid".
Proof.
  split; [reflexivity|split; [reflexivity|]].
  destruct (short_identifier_passes_when_padded paddedRequest (storeWith "12345678"))
    as (_ & _ & H).
  - reflexivity.
  - reflexivity.
  - simpl; lia.
  - vm_compute; lia.
  - rewrite H; [reflexivity|left; reflexivity].
Defined.

(** ** The update trigger *)

(** C9. [POST /update]: the status is read once; seen [ready] or
    [failed], one refresh signal is enqueued and the text is "Checking
    remote for updated dataset"; seen [processing], no signal is
    enqueued and the text is "Update is already in progress". *)
Theorem update_trigger_contract (w : World) :
  statusReads (trace (snd (kickstartUpdate w))) = S (statusReads (trace w)) /\
  (synced w = ready \/ synced w = failed ->
   signals (trace (snd (kickstartUpdate w))) = S (signals (trace w)) /\
   Written (fst (kickstartUpdate w)) = "Checking remote for updated dataset") /\
  (synced w = processing ->
   signals (trace (snd (kickstartUpdate w))) = signals (trace w) /\
   Written (fst (kickstartUpdate w)) = "Update is already in progress").
Proof.
  unfold kickstartUpdate, recv_syncedStatus, send_syncedStatus,
    go_send_updateRequired, statusReads, signals.
  run. destruct w as [d fs s t]; simpl.
  destruct s; simpl;
    repeat rewrite !List.filter_app; repeat rewrite !List.length_app; simpl;
    (split; [lia|split; [intros [?|?]|intros ?]]);
    try discriminate; split; try reflexivity; lia.
Qed.

Lemma update_trigger_contract_witness :
  signals (trace (snd (kickstartUpdate sampleWorld))) = 1 /\
  Written (fst (kickstartUpdate sampleWorld)) = "Checking remote for updated dataset".
Proof.
  destruct (update_trigger_contract sampleWorld) as (_ & H & _).
  apply H. left. reflexivity.
Defined.

(** ** Ingest *)

Lemma Get_insert_ne (b : Bucket) (k k' v : string) :
  k <> k' -> Bolt.Get (<[k := v]> b) k' = Bolt.Get b k'.
Proof. intros H. unfold Bolt.Get. by rewrite lookup_insert_ne. Qed.

Lemma Get_insert_eq (b : Bucket) (k v : string) :
  Bolt.Get (<[k := v]> b) k = v.
Proof. unfold Bolt.Get. by rewrite lookup_insert_eq. Qed.

Lemma Put_cases (b : Bucket) (k v : string) :
  (exists e, Bolt.Put b k v = (b, Some e)) \/
  Bolt.Put b k v = (<[k := v]> b, None).
Proof.
  unfold Bolt.Put.
  repeat match goal with |- context [if ?c then _ else _] => destruct c end;
    eauto.
Qed.

(** [putLines] writes only where [Get] reads the empty string. *)
Lemma putLines_keeps (ls : list string) :
  forall (b b' : Bucket) (err : option error) (k : string),
    putLines ls b = (b', err) ->
    Bolt.Get b k <> "" ->
    b' !! k = b !! k.
Proof.
  induction ls as [|l ls IH]; intros b b' err k Hp Hk; simpl in Hp.
  - by inversion Hp.
  - destruct (String.eqb_spec (Bolt.Get b (Strings.TrimSpace l)) "") as [Hl|Hl].
    + destruct (Put_cases b (Strings.TrimSpace l) "1") as [[e He]|He];
        rewrite He in Hp.
      * by inversion Hp.
      * assert (Hne : Strings.TrimSpace l <> k) by (intros E; subst k; contradiction).
        rewrite (IH _ _ _ k Hp).
        -- by apply lookup_insert_ne.
        -- by rewrite Get_insert_ne.
    + eauto.
Qed.

Lemma putLines_Get (ls : list string) (b b' : Bucket) (err : option error) (k : string) :
  putLines ls b = (b', err) -> Bolt.Get b k <> "" -> Bolt.Get b' k = Bolt.Get b k.
Proof.
  intros Hp Hk. unfold Bolt.Get. by rewrite (putLines_keeps _ _ _ _ _ Hp Hk).
Qed.

(** A batch whose lines are all there already changes nothing. *)
Lemma putLines_noop (ls : list string) (b : Bucket) :
  (forall l, In l ls -> Bolt.Get b (Strings.TrimSpace l) <> "") ->
  putLines ls b = (b, None).
Proof.
  induction ls as [|l ls IH]; intros H; simpl; [reflexivity|].
  destruct (String.eqb_spec (Bolt.Get b (Strings.TrimSpace l)) "") as [Hl|Hl].
  - exfalso. apply (H l); [by left|exact Hl].
  - apply IH. intros l' Hl'. apply H. by right.
Qed.

(** After a batch went through, all its lines are there. *)
Lemma putLines_stores (ls : list string) :
  forall (b b' : Bucket),
    putLines ls b = (b', None) ->
    forall l, In l ls -> Bolt.Get b' (Strings.TrimSpace l) <> "".
Proof.
  induction ls as [|l ls IH]; intros b b' Hp l' Hin; [destruct Hin|].
  simpl in Hp.
  destruct (String.eqb_spec (Bolt.Get b (Strings.TrimSpace l)) "") as [Hl|Hl].
  - destruct (Put_cases b (Strings.TrimSpace l) "1") as [[e He]|He];
      rewrite He in Hp; [discriminate|].
    destruct Hin as [<-|Hin]; [|eauto].
    rewrite (putLines_Get _ _ _ _ _ Hp); rewrite Get_insert_eq; discriminate.
  - destruct Hin as [<-|Hin]; [|eauto].
    by rewrite (putLines_Get _ _ _ _ _ Hp).
Qed.

(** The two outcomes of a batch commit: an error and the database as
    it was, or no error and the bucket [putLines] computed. *)
Lemma saveToDB_cases (ls : list string) (w : World) :
  (exists e, saveToDB ls w = (Some e, afterTx w)) \/
  (exists b',
     putLines ls (Bolt.CreateBucketIfNotExists (db w) "passports") = (b', None) /\
     saveToDB ls w =
       (None, mkWorld (<["passports" := b']> (db w)) (tail (faults w))
                      (synced w) (trace w))).
Proof.
  unfold saveToDB. rewrite db_Update_spec.
  destruct (putLines ls (Bolt.CreateBucketIfNotExists (db w) "passports"))
    as [b' [e|]] eqn:Hp;
    destruct (default Bolt.Healthy (head (faults w))) eqn:Hf; eauto.
Qed.

Lemma stored_bucket (d : DB) (k : string) :
  stored d k = Bolt.Get (Bolt.CreateBucketIfNotExists d "passports") k.
Proof.
  unfold stored, Bolt.CreateBucketIfNotExists.
  destruct (d !! "passports"); [reflexivity|].
  unfold Bolt.Get. by rewrite lookup_empty.
Qed.

Lemma stored_insert (d : DB) (b : Bucket) (k : string) :
  stored (<["passports" := b]> d) k = Bolt.Get b k.
Proof. unfold stored. by rewrite lookup_insert_eq. Qed.

Lemma bucket_exists (d : DB) (k : string) :
  stored d k <> "" ->
  d !! "passports" = Some (Bolt.CreateBucketIfNotExists d "passports").
Proof.
  unfold stored, Bolt.CreateBucketIfNotExists.
  destruct (d !! "passports"); [reflexivity|contradiction].
Qed.

Lemma blacklisted_in_true (d : DB) (num : string) :
  blacklisted_in d num = true <-> stored d (Strings.TrimSpace num) <> "".
Proof.
  unfold blacklisted_in.
  destruct (String.eqb_spec (stored d (Strings.TrimSpace num)) ""); simpl;
    split; congruence.
Qed.

Lemma Put_ok (b : Bucket) (k : string) :
  keyOK k -> Bolt.Put b k "1" = (<[k := "1"]> b, None).
Proof.
  intros [H0 H1]. unfold Bolt.Put.
  destruct (Z.eqb_spec (Z.of_nat (String.length k)) 0); [lia|].
  destruct (Z.ltb_spec Bolt.MaxKeySize (Z.of_nat (String.length k))); [lia|].
  reflexivity.
Qed.

(** A key that reads non-empty has one entry. *)
Lemma entries_present (d : DB) (k : string) :
  stored d k <> "" -> length (entries d k) = 1.
Proof.
  unfold stored, entries, Bolt.Get.
  destruct (d !! "passports") as [b|]; [|contradiction].
  destruct (b !! k) as [v|] eqn:Hv; [intros _|contradiction].
  rewrite <- (map_to_list_delete b k v Hv).
  rewrite filter_cons_True by reflexivity.
  destruct (filter (fun kv : string * string => kv.1 = k)
                   (map_to_list (delete k b))) as [|[k' v'] l] eqn:Hf;
    [reflexivity|].
  assert (Hin : (k', v') ∈ filter (fun kv : string * string => kv.1 = k)
                              (map_to_list (delete k b)))
    by (rewrite Hf; left).
  apply list_elem_of_filter in Hin as [Hk Hin]. simpl in Hk. subst k'.
  apply elem_of_map_to_list in Hin. rewrite lookup_delete_eq in Hin.
  discriminate Hin.
Qed.

Lemma putLines_markers (ls : list string) :
  forall (b b' : Bucket) (err : option error),
    (forall k, b !! k <> Some "") ->
    putLines ls b = (b', err) ->
    forall k, b' !! k <> Some "".
Proof.
  induction ls as [|l ls IH]; intros b b' err Hb Hp; simpl in Hp.
  - inversion Hp; subst. exact Hb.
  - destruct (String.eqb (Bolt.Get b (Strings.TrimSpace l)) ""); [|eauto].
    destruct (Put_cases b (Strings.TrimSpace l) "1") as [[e He]|He];
      rewrite He in Hp.
    + inversion Hp; subst. exact Hb.
    + refine (IH _ _ _ _ Hp). intros k.
      destruct (decide (Strings.TrimSpace l = k)) as [->|Hne].
      * rewrite lookup_insert_eq. discriminate.
      * rewrite lookup_insert_ne by assumption. apply Hb.
Qed.

(** The writers keep the presence markers non-empty. *)
Lemma writers_keep_markers (w : World) :
  markers (db w) ->
  (forall ls, markers (db (snd (saveToDB ls w)))) /\
  (forall now, markers (db (snd (setLastUpdated now w)))).
Proof.
  intros Hm. split.
  - intros ls.
    destruct (saveToDB_cases ls w) as [[e ->]|(b' & Hp & ->)]; simpl;
      [assumption|].
    intros b k Hb. rewrite lookup_insert_eq in Hb. inversion Hb; subst b.
    revert k. refine (putLines_markers _ _ _ _ _ Hp).
    intros k. unfold Bolt.CreateBucketIfNotExists.
    destruct (db w !! "passports") as [b0|] eqn:Hb0.
    + by apply Hm.
    + rewrite lookup_empty. discriminate.
  - intros now. unfold setLastUpdated. rewrite db_Update_spec.
    destruct (Bolt.Put (Bolt.CreateBucketIfNotExists (db w) "ustatus") "updated" now)
      as [b' e].
    destruct (default Bolt.Healthy (head (faults w))); simpl; try assumption.
    intros b k Hb. rewrite lookup_insert_ne in Hb by discriminate.
    by apply Hm.
Qed.

Lemma saveToDB_keeps (batch : list string) (w : World) (k : string) :
  stored (db w) k <> "" ->
  stored (db (snd (saveToDB batch w))) k = stored (db w) k.
Proof.
  intros H.
  destruct (saveToDB_cases batch w) as [[e ->]|(b' & Hp & ->)]; simpl;
    [reflexivity|].
  rewrite stored_insert, (stored_bucket (db w)).
  apply (putLines_Get _ _ _ _ _ Hp). by rewrite <- stored_bucket.
Qed.

(** C6. Ingest is idempotent.  A batch that contains an identifier
    already in the store leaves its entry and the answer of the
    membership query as they were, and there is exactly one entry for
    it; committing that identifier alone leaves the whole database as
    it was; committing a batch a second time after it went through
    changes nothing; and an identifier that is not there is inserted
    (put-if-absent). *)
Theorem ingest_idempotent :
  (forall (w : World) (batch : list string) (id : string),
      In id batch ->
      blacklisted_in (db w) id = true ->
      stored (db (snd (saveToDB batch w))) (Strings.TrimSpace id)
        = stored (db w) (Strings.TrimSpace id) /\
      length (entries (db (snd (saveToDB batch w))) (Strings.TrimSpace id)) = 1 /\
      blacklisted_in (db (snd (saveToDB batch w))) id = true) /\
  (forall (w : World) (id : string),
      blacklisted_in (db w) id = true ->
      db (snd (saveToDB [id] w)) = db w) /\
  (forall (w : World) (batch : list string),
      fst (saveToDB batch w) = None ->
      db (snd (saveToDB batch (snd (saveToDB batch w))))
        = db (snd (saveToDB batch w))) /\
  (forall (w : World) (id : string),
      healthyNext w ->
      keyOK (Strings.TrimSpace id) ->
      blacklisted_in (db w) id = false ->
      stored (db (snd (saveToDB [id] w))) (Strings.TrimSpace id) = "1").
Proof.
  split; [|split; [|split]].
  - intros w batch id _ Hb. apply blacklisted_in_true in Hb.
    pose proof (saveToDB_keeps batch w _ Hb) as Hk.
    split; [exact Hk|]. split.
    + apply entries_present. by rewrite Hk.
    + apply blacklisted_in_true. by rewrite Hk.
  - intros w id H. apply blacklisted_in_true in H.
    destruct (saveToDB_cases [id] w) as [[e ->]|(b' & Hp & ->)]; simpl;
      [reflexivity|].
    rewrite putLines_noop in Hp.
    + inversion Hp; subst b'. apply insert_id. by apply (bucket_exists _ _ H).
    + intros l [<-|[]]. by rewrite <- stored_bucket.
  - intros w batch H.
    destruct (saveToDB_cases batch w) as [[e He]|(b' & Hp & He)];
      rewrite He in *; [discriminate|]. simpl.
    match goal with |- db (snd (saveToDB batch ?w')) = _ =>
      destruct (saveToDB_cases batch w') as [[e' ->]|(b'' & Hp' & ->)]
    end; simpl; [reflexivity|].
    simpl in Hp'. unfold Bolt.CreateBucketIfNotExists in Hp' at 1.
    rewrite lookup_insert_eq in Hp'.
    rewrite (putLines_noop batch b' (putLines_stores _ _ _ Hp)) in Hp'.
    inversion Hp'; subst b''. apply insert_insert_eq.
  - intros w id Hh Hk Ha.
    assert (Hs : stored (db w) (Strings.TrimSpace id) = "").
    { unfold blacklisted_in in Ha.
      destruct (String.eqb_spec (stored (db w) (Strings.TrimSpace id)) "");
        [assumption|discriminate]. }
    unfold saveToDB. rewrite db_Update_spec, (healthyNext_default _ Hh).
    simpl. rewrite <- stored_bucket, Hs. simpl.
    rewrite (Put_ok _ _ Hk). simpl. rewrite stored_insert. apply Get_insert_eq.
Qed.

Lemma ingest_idempotent_witness :
  db (snd (saveToDB ["123456789"] (storeWith "123456789")))
    = db (storeWith "123456789") /\
  blacklisted_in (db (snd (saveToDB ["123456789"] (storeWith "123456789"))))
    "123456789" = true.
Proof.
  destruct ingest_idempotent as (H1 & H2 & _).
  split.
  - apply H2. reflexivity.
  - apply (H1 (storeWith "123456789") ["123456789"] "123456789");
      [left; reflexivity|reflexivity].
Defined.

(** ** Tokens *)

Lemma firstStrip_digit (c : ascii) (s : string) :
  isDigit c = true ->
  Strings.firstStrip Strings.spaceRunes (String c s) = None /\
  Strings.firstStrip (map Strings.reverse Strings.spaceRunes) (String c s) = None.
Proof.
  destruct c as [b0 b1 b2 b3 b4 b5 b6 b7].
  destruct b0, b1, b2, b3, b4, b5, b6, b7; intros H;
    try discriminate H; split; reflexivity.
Qed.

Lemma digitsOnly_list (s : string) :
  digitsOnly s = true <-> Forall (fun c => isDigit c = true) (list_ascii_of_string s).
Proof.
  induction s as [|c s IH]; simpl.
  - split; [constructor|reflexivity].
  - rewrite andb_true_iff, IH. split.
    + intros [? ?]. by constructor.
    + intros H. by inversion H.
Qed.

(** Trimming leaves a string of digits as it is. *)
Lemma TrimSpace_digits (s : string) :
  digitsOnly s = true -> Strings.TrimSpace s = s.
Proof.
  intros H. unfold Strings.TrimSpace.
  assert (HL : Strings.TrimLeft s = s).
  { unfold Strings.TrimLeft. destruct s as [|c s]; [reflexivity|].
    simpl in H. apply andb_true_iff in H as [Hc _].
    cbn [String.length Strings.trimLeftRunes].
    by rewrite (proj1 (firstStrip_digit c s Hc)). }
  rewrite HL. unfold Strings.TrimRight, Strings.reverse.
  apply digitsOnly_list in H. apply Forall_rev in H.
  assert (Hid : string_of_list_ascii
                  (List.rev (List.rev (list_ascii_of_string s))) = s)
    by (rewrite List.rev_involutive; apply string_of_list_ascii_of_string).
  destruct s as [|a s]; [reflexivity|].
  change (String.length (String a s)) with (S (String.length s)).
  destruct (List.rev (list_ascii_of_string (String a s))) as [|c l] eqn:Hr.
  - exfalso. apply (f_equal (@List.length ascii)) in Hr.
    rewrite List.length_rev in Hr. discriminate Hr.
  - inversion H as [|? ? Hc _]; subst.
    cbn [string_of_list_ascii Strings.trimLeftRunes].
    rewrite (proj2 (firstStrip_digit c _ Hc)).
    change (String c (string_of_list_ascii l)) with (string_of_list_ascii (c :: l)).
    rewrite list_ascii_of_string_of_list_ascii. exact Hid.
Qed.

Lemma digitsOf_app (a b : string) :
  digitsOf (a ++ b) = (digitsOf a ++ digitsOf b)%string.
Proof.
  induction a as [|c a IH]; [reflexivity|].
  change (String c a ++ b)%string with (String c (a ++ b)). simpl.
  destruct (isDigit c); [|exact IH].
  change (String c (digitsOf a) ++ digitsOf b)%string
    with (String c (digitsOf a ++ digitsOf b)).
  by rewrite IH.
Qed.

Lemma append_empty_r (s : string) : (s ++ "")%string = s.
Proof.
  induction s as [|c s IH]; [reflexivity|].
  change (String c s ++ "")%string with (String c (s ++ "")). by rewrite IH.
Qed.

Lemma newline_not_digit (c : ascii) : isDigit c = true -> Ascii.eqb c newline = false.
Proof.
  intros H. destruct (Ascii.eqb_spec c newline) as [->|]; [discriminate H|reflexivity].
Qed.

Lemma scan_tokens (input : string) :
  forall (st : Loop) (cur : string),
    line st = digitsOf cur ->
    lines (scan input st) =
      lines st ++ List.filter nonEmpty (map digitsOf (completeLines input cur)).
Proof.
  induction input as [|c input IH]; intros st cur Hl; simpl.
  - by rewrite List.app_nil_r.
  - unfold scanByte. destruct (isDigit c) eqn:Hd.
    + rewrite (newline_not_digit c Hd).
      rewrite (IH _ (cur ++ String c "")%string); [reflexivity|].
      rewrite digitsOf_app, Hl. simpl. by rewrite Hd.
    + destruct (Ascii.eqb c newline) eqn:Hn.
      * simpl. rewrite <- Hl. unfold nonEmpty at 1.
        destruct (String.eqb_spec (line st) "") as [He|He]; simpl.
        -- rewrite (IH _ ""); [reflexivity|exact He].
        -- rewrite (IH _ ""); [|reflexivity]. simpl. by rewrite <- List.app_assoc.
      * apply IH. rewrite digitsOf_app, Hl. simpl. rewrite Hd. apply eq_sym, append_empty_r.
Qed.

(** The claim C2 as stated fails: a byte that is neither a digit nor a
    newline does not end the pending token.  The feed [12a34] and a
    newline yields the one token [1234], which is no run of adjacent
    bytes of the feed. *)
Lemma digits_merge_across_other_bytes :
  tokens mergedFeed = ["1234"] /\ occursIn "1234" mergedFeed = false /\
  ~ (forall input t, In t (tokens input) -> occursIn t input = true).
Proof.
  split; [reflexivity|split; [reflexivity|]].
  intros H. specialize (H mergedFeed "1234" (or_introl eq_refl)).
  discriminate H.
Qed.

(** C2, amended.  The tokenizer appends each decimal-digit byte to the
    pending token, emits the pending token exactly when a newline is
    read while it is not empty, and skips every other byte without
    ending the pending token.  So the tokens of a feed are, line by
    line for the lines a newline ends, all digit bytes of the line put
    together, where there is at least one. *)
Theorem tokenizer_joins_digits_per_line :
  (forall c st,
      lines (scanByte c st) =
        if (Ascii.eqb c newline && nonEmpty (line st))%bool
        then lines st ++ [line st] else lines st) /\
  (forall c st,
      isDigit c = true -> line (scanByte c st) = (line st ++ String c "")%string) /\
  (forall c st,
      isDigit c = false -> Ascii.eqb c newline = false -> scanByte c st = st) /\
  (forall input,
      tokens input = List.filter nonEmpty (map digitsOf (completeLines input ""))).
Proof.
  repeat split.
  - intros c st. unfold scanByte, nonEmpty. destruct (isDigit c) eqn:Hd.
    + by rewrite (newline_not_digit c Hd).
    + destruct (Ascii.eqb c newline); [|reflexivity].
      destruct (String.eqb (line st) ""); reflexivity.
  - intros c st Hd. unfold scanByte. by rewrite Hd.
  - intros c st Hd Hn. unfold scanByte. by rewrite Hd, Hn.
  - intros input. unfold tokens. by rewrite (scan_tokens input Loop0 "").
Qed.

Lemma tokenizer_joins_digits_per_line_witness :
  line (scanByte "7" (mkLoop "12" [] 0 0)) = "127" /\
  scanByte "," (mkLoop "12" [] 0 0) = mkLoop "12" [] 0 0.
Proof.
  destruct tokenizer_joins_digits_per_line as (_ & H2 & H3 & _).
  split; [apply (H2 "7"%char); reflexivity|apply (H3 ","%char); reflexivity].
Defined.

(** ** The pipeline on a store without faults *)

Lemma digitsOnly_digitsOf (s : string) : digitsOnly (digitsOf s) = true.
Proof.
  induction s as [|c s IH]; simpl; [reflexivity|].
  destruct (isDigit c) eqn:Hd; simpl; [by rewrite Hd|assumption].
Qed.

(** Tokens are non-empty strings of digits. *)
Lemma tokens_digits (input x : string) :
  In x (tokens input) -> digitsOnly x = true /\ x <> "".
Proof.
  unfold tokens. rewrite (scan_tokens input Loop0 ""); [|reflexivity]. simpl.
  intros [Hin Hne]%List.filter_In.
  apply List.in_map_iff in Hin as (l & <- & _). split.
  - apply digitsOnly_digitsOf.
  - unfold nonEmpty in Hne. intros E. rewrite E in Hne. discriminate Hne.
Qed.

Lemma token_keyOK (input x : string) :
  In x (tokens input) ->
  (Z.of_nat (String.length x) <= Bolt.MaxKeySize)%Z ->
  keyOK (Strings.TrimSpace x).
Proof.
  intros [Hd Hne]%tokens_digits Hsz. rewrite (TrimSpace_digits x Hd).
  split; [|assumption]. destruct x; [contradiction|simpl; lia].
Qed.

Lemma scanByte_rel (c : ascii) (st p : Loop) :
  line st = line p ->
  line (scanByte c st) = line (scanByte c p) /\
  ((lines (scanByte c st) = lines st /\ lines (scanByte c p) = lines p) \/
   (lines (scanByte c st) = lines st ++ [line p] /\
    lines (scanByte c p) = lines p ++ [line p])).
Proof.
  intros H. unfold scanByte. rewrite H.
  destruct (isDigit c); [simpl; auto|].
  destruct (Ascii.eqb c newline); [|auto].
  destruct (String.eqb (line p) ""); simpl; auto.
Qed.

Lemma scan_incl (input : string) :
  forall st, incl (lines st) (lines (scan input st)).
Proof.
  induction input as [|c input IH]; intros st; simpl; [apply incl_refl|].
  eapply incl_tran; [|apply IH].
  destruct (scanByte_rel c st st eq_refl) as [_ [[-> _]|[-> _]]];
    [apply incl_refl|apply incl_appl, incl_refl].
Qed.

Lemma putLines_ok (ls : list string) :
  forall b : Bucket,
    (forall l, In l ls -> keyOK (Strings.TrimSpace l)) ->
    exists b', putLines ls b = (b', None).
Proof.
  induction ls as [|l ls IH]; intros b H; simpl; [eauto|].
  destruct (String.eqb (Bolt.Get b (Strings.TrimSpace l)) "").
  - rewrite (Put_ok b _ (H l (or_introl eq_refl))). apply IH.
    intros l' Hl'. apply H. by right.
  - apply IH. intros l' Hl'. apply H. by right.
Qed.

(** A batch of acceptable keys commits on a store without faults;
    afterwards its lines are in the store, and so is all that was. *)
Lemma saveToDB_healthy (ls : list string) (d : DB) (s : Status) (t : list event) :
  (forall l, In l ls -> keyOK (Strings.TrimSpace l)) ->
  exists d',
    saveToDB ls (mkWorld d [] s t) = (None, mkWorld d' [] s t) /\
    (forall x, In x ls -> blacklisted_in d' x = true) /\
    (forall x, blacklisted_in d x = true -> blacklisted_in d' x = true).
Proof.
  intros Hk.
  destruct (putLines_ok ls (Bolt.CreateBucketIfNotExists d "passports") Hk)
    as [b' Hp].
  destruct (saveToDB_cases ls (mkWorld d [] s t)) as [[e He]|(b'' & Hp' & He)].
  - exfalso. unfold saveToDB in He. rewrite db_Update_spec in He.
    simpl in He. rewrite Hp in He. discriminate He.
  - simpl in Hp', He. rewrite Hp in Hp'. inversion Hp'; subst b''.
    exists (<["passports" := b']> d). split; [exact He|]. split.
    + intros x Hx. apply blacklisted_in_true. rewrite stored_insert.
      exact (putLines_stores _ _ _ Hp x Hx).
    + intros x Hx. apply blacklisted_in_true.
      apply blacklisted_in_true in Hx. rewrite stored_insert.
      rewrite (putLines_Get _ _ _ _ _ Hp); by rewrite <- stored_bucket.
Qed.

(** The read loop with its flushes against the loop without ([p]):
    on a store without faults, every token the scan has emitted is in
    the store or still in the buffer. *)
Lemma readLoop_healthy (input : string) :
  forall (st p : Loop) (d : DB) (s : Status) (t : list event),
    line st = line p ->
    incl (lines st) (lines p) ->
    (forall x, In x (lines p) -> blacklisted_in d x = true \/ In x (lines st)) ->
    (forall x, In x (lines (scan input p)) -> keyOK (Strings.TrimSpace x)) ->
    exists st' d',
      readLoop input st (mkWorld d [] s t) = (st', mkWorld d' [] s t) /\
      incl (lines st') (lines (scan input p)) /\
      (forall x, In x (lines (scan input p)) ->
                 blacklisted_in d' x = true \/ In x (lines st')) /\
      (forall x, blacklisted_in d x = true -> blacklisted_in d' x = true).
Proof.
  induction input as [|c input IH]; intros st p d s t Hl Hi Hc Hk.
  - exists st, d. simpl. auto.
  - cbn [readLoop scan] in *. unfold mbind, M_bind.
    destruct (scanByte_rel c st p Hl) as [Hl1 Hrel].
    assert (Hi1 : incl (lines (scanByte c st)) (lines (scanByte c p))).
    { destruct Hrel as [[-> ->]|[-> ->]]; [assumption|].
      apply incl_app; [by apply incl_appl|apply incl_appr, incl_refl]. }
    assert (Hc1 : forall x, In x (lines (scanByte c p)) ->
                  blacklisted_in d x = true \/ In x (lines (scanByte c st))).
    { destruct Hrel as [[-> ->]|[-> ->]]; [assumption|].
      intros x [Hx|Hx]%List.in_app_iff.
      - destruct (Hc x Hx); [by left|right; apply List.in_app_iff; by left].
      - right. apply List.in_app_iff. by right. }
    unfold flushFull.
    destruct (Nat.leb 1000 (savedLines (scanByte c st))).
    + unfold mbind, M_bind.
      destruct (saveToDB_healthy (lines (scanByte c st)) d s t)
        as (d1 & -> & Hin & Hmono).
      { intros l Hlin. apply Hk. apply (scan_incl input). by apply Hi1. }
      unfold mret, M_ret.
      assert (Hi2 : incl (@nil string) (lines (scanByte c p)))
        by (intros x []).
      assert (Hc2 : forall x, In x (lines (scanByte c p)) ->
                    blacklisted_in d1 x = true \/ In x (@nil string)).
      { intros x Hx. left. destruct (Hc1 x Hx); auto. }
      destruct (IH (mkLoop (line (scanByte c st)) [] (linesRead (scanByte c st)) 0)
                   (scanByte c p) d1 s t Hl1 Hi2 Hc2 Hk)
        as (st' & d' & Hrun & Hi' & Hc' & Hm').
      exists st', d'. repeat split; auto.
    + unfold mret, M_ret.
      destruct (IH (scanByte c st) (scanByte c p) d s t Hl1 Hi1 Hc1 Hk)
        as (st' & d' & Hrun & Hi' & Hc' & Hm').
      exists st', d'. repeat split; auto.
Qed.

Lemma stored_other_bucket (d : DB) (name : string) (b : Bucket) (k : string) :
  name <> "passports" -> stored (<[name := b]> d) k = stored d k.
Proof. intros H. unfold stored. by rewrite lookup_insert_ne. Qed.

(** The timestamp is written on a store without faults, and the
    [passports] namespace is as before. *)
Lemma setLastUpdated_healthy (now : string) (d : DB) (s : Status) (t : list event) :
  exists d',
    setLastUpdated now (mkWorld d [] s t) = (None, mkWorld d' [] s t) /\
    forall x, blacklisted_in d' x = blacklisted_in d x.
Proof.
  unfold setLastUpdated. rewrite db_Update_spec. simpl.
  destruct (Bolt.Put (Bolt.CreateBucketIfNotExists d "ustatus") "updated" now)
    as [b' e].
  eexists. split; [reflexivity|].
  intros x. unfold blacklisted_in. by rewrite stored_other_bucket.
Qed.

(** One pipeline run on a store without faults, all tokens fitting a
    key: the run fails exactly when the stream ends with an error
    other than end-of-stream, and either way every token of the feed
    is in the store afterwards. *)
Lemma downloadUpdate_healthy (remote : Remote) (resp : Stream)
      (d : DB) (s : Status) (t : list event) :
  http_Get remote = Ok resp ->
  (forall x, In x (tokens (data resp)) ->
             (Z.of_nat (String.length x) <= Bolt.MaxKeySize)%Z) ->
  exists d',
    downloadUpdate remote (mkWorld d [] s t) =
      ((if is_EOF (rdrErr resp) then (true, None)
        else (false, Some (rdrErr resp))),
       mkWorld d' [] s (t ++ [Http_GET])) /\
    (forall x, In x (tokens (data resp)) -> blacklisted_in d' x = true) /\
    (forall x, blacklisted_in d x = true -> blacklisted_in d' x = true).
Proof.
  intros Hg Hsz. unfold downloadUpdate. rewrite Hg.
  unfold mbind at 1, M_bind at 1, emit. cbn [db faults synced trace].
  unfold mbind at 1, M_bind at 1.
  assert (Hk : forall x, In x (lines (scan (data resp) Loop0)) ->
                keyOK (Strings.TrimSpace x)).
  { intros x Hx. apply (token_keyOK (data resp)); auto. }
  assert (Hc0 : forall x, In x (lines Loop0) ->
                blacklisted_in d x = true \/ In x (lines Loop0))
    by (intros x []).
  destruct (readLoop_healthy (data resp) Loop0 Loop0 d s (t ++ [Http_GET])
              eq_refl (incl_refl _) Hc0 Hk)
    as (st & d1 & -> & Hi & Hc & Hm).
  fold (tokens (data resp)) in Hi, Hc.
  assert (Hsave : exists d2,
    (if Nat.ltb 0 (List.length (lines st)) then saveToDB (lines st) else mret None)
      (mkWorld d1 [] s (t ++ [Http_GET])) = (None, mkWorld d2 [] s (t ++ [Http_GET])) /\
    (forall x, In x (tokens (data resp)) -> blacklisted_in d2 x = true) /\
    (forall x, blacklisted_in d1 x = true -> blacklisted_in d2 x = true)).
  { destruct (lines st) as [|l ls] eqn:Hls.
    - exists d1. simpl. repeat split; auto.
      intros x Hx. destruct (Hc x Hx) as [?|[]]; assumption.
    - cbn [List.length Nat.ltb Nat.leb].
      destruct (saveToDB_healthy (l :: ls) d1 s (t ++ [Http_GET]))
        as (d2 & Hs & Hin & Hmono).
      { intros x Hx. apply (token_keyOK (data resp)); auto. }
      exists d2. repeat split; auto.
      intros x Hx. destruct (Hc x Hx); auto. }
  destruct Hsave as (d2 & Hs & Hin2 & Hm2).
  unfold mbind at 1, M_bind at 1. rewrite Hs.
  destruct (is_EOF (rdrErr resp)); simpl.
  - unfold mbind, M_bind.
    destruct (setLastUpdated_healthy (time_Now remote) d2 s (t ++ [Http_GET]))
      as (d3 & -> & Hsame).
    exists d3. repeat split.
    + intros x Hx. rewrite Hsame. auto.
    + intros x Hx. rewrite Hsame. auto.
  - exists d2. repeat split; auto.
Qed.

(** ** The pipeline: read errors *)

(** The claim C3 as stated fails: the stream gives one line and then a
    decompression error; no batch was flushed before the error, the
    run returns the error, and the buffered token is in the store. *)
Lemma remainder_committed_on_read_error :
  fst (downloadUpdate brokenFeed sampleWorld)
    = (false, Some (Err pkg_bzip2 "bzip2 data invalid")) /\
  blacklisted_in (db sampleWorld) "123456789" = false /\
  blacklisted_in (db (snd (downloadUpdate brokenFeed sampleWorld))) "123456789" = true.
Proof. repeat split; vm_compute; reflexivity. Qed.

(** C3, amended.  A run whose stream ends with an error other than
    end-of-stream returns failure.  The remaining partial batch is
    committed before the error is returned: on a store that takes the
    commits, every token read before the error is in the store, those
    of the last partial batch too.  End-of-stream is success, the
    remaining partial batch being committed first. *)
Theorem read_error_fails_after_final_commit :
  (forall (remote : Remote) (resp : Stream) (w : World),
      http_Get remote = Ok resp ->
      is_EOF (rdrErr resp) = false ->
      fst (fst (downloadUpdate remote w)) = false /\
      notNil (snd (fst (downloadUpdate remote w))) = true) /\
  (forall (remote : Remote) (resp : Stream) (w : World),
      http_Get remote = Ok resp ->
      faults w = [] ->
      (forall x, In x (tokens (data resp)) ->
                 (Z.of_nat (String.length x) <= Bolt.MaxKeySize)%Z) ->
      fst (downloadUpdate remote w)
        = (if is_EOF (rdrErr resp) then (true, None)
           else (false, Some (rdrErr resp))) /\
      (forall x, In x (tokens (data resp)) ->
                 blacklisted_in (db (snd (downloadUpdate remote w))) x = true)).
Proof.
  split.
  - intros remote resp w Hg He. unfold downloadUpdate. rewrite Hg.
    unfold mbind, M_bind.
    destruct (emit Http_GET w) as [[] w1].
    destruct (readLoop (data resp) Loop0 w1) as [st w2].
    destruct ((if Nat.ltb 0 (List.length (lines st))
               then saveToDB (lines st) else mret None) w2) as [[e|] w3].
    + split; reflexivity.
    + rewrite He. split; reflexivity.
  - intros remote resp [d fs s t] Hg Hf Hsz. simpl in Hf. subst fs.
    destruct (downloadUpdate_healthy remote resp d s t Hg Hsz)
      as (d' & -> & Hin & _).
    split; [reflexivity|exact Hin].
Qed.

Lemma read_error_fails_after_final_commit_witness :
  fst (downloadUpdate brokenFeed sampleWorld)
    = (false, Some (Err pkg_bzip2 "bzip2 data invalid")) /\
  blacklisted_in (db (snd (downloadUpdate brokenFeed sampleWorld))) "123456789" = true.
Proof.
  destruct read_error_fails_after_final_commit as [_ H].
  destruct (H brokenFeed
              (mkStream (feedLine "123456789") (Err pkg_bzip2 "bzip2 data invalid"))
              sampleWorld) as [H1 H2].
  - reflexivity.
  - reflexivity.
  - intros x [<-|[]]. vm_compute. discriminate.
  - split; [exact H1|]. apply H2. left. reflexivity.
Defined.

(** ** The query handler: the answer *)

Lemma handle_healthy (req : Request) (w : World) :
  validRequest req -> healthyNext w ->
  fst (handlePassportValid req w) =
    res_Write (if blacklisted_in (db w) (Body req) then "invalid" else "valid").
Proof.
  intros (Hm & Hr & Hl) Hh. unfold handlePassportValid.
  rewrite Hm, String.eqb_refl, Hr. simpl.
  destruct (Nat.ltb_spec (String.length (Body req)) 9); [lia|].
  unfold mbind, M_bind. rewrite (isBlacklisted_healthy _ _ Hh).
  destruct (blacklisted_in (db w) (Body req)); reflexivity.
Qed.

(** C8. For a valid [POST /] request that meets no storage error, on
    a store whose presence markers are not empty: the text is "valid"
    exactly when the trimmed identifier has no entry in [passports] and
    "invalid" exactly when it has one.  On an empty store the text is
    "valid"; after a refresh that succeeded and whose feed had the
    identifier as a token, it is "invalid".  The markers are not empty
    in the empty store, and the two writers keep them so. *)
Theorem membership_query_result :
  (forall (req : Request) (w : World),
      validRequest req -> healthyNext w -> markers (db w) ->
      (Written (fst (handlePassportValid req w)) = "valid" <->
       ~ present (db w) (Strings.TrimSpace (Body req))) /\
      (Written (fst (handlePassportValid req w)) = "invalid" <->
       present (db w) (Strings.TrimSpace (Body req)))) /\
  (forall (req : Request) (w : World),
      validRequest req -> healthyNext w -> db w = ∅ ->
      Written (fst (handlePassportValid req w)) = "valid") /\
  (forall (req : Request) (remote : Remote) (resp : Stream) (w : World),
      validRequest req ->
      http_Get remote = Ok resp -> rdrErr resp = io_EOF ->
      faults w = [] ->
      (forall x, In x (tokens (data resp)) ->
                 (Z.of_nat (String.length x) <= Bolt.MaxKeySize)%Z) ->
      In (Body req) (tokens (data resp)) ->
      fst (downloadUpdate remote w) = (true, None) /\
      Written (fst (handlePassportValid req (snd (downloadUpdate remote w))))
        = "invalid") /\
  (markers ∅ /\
   forall (w : World),
     markers (db w) ->
     (forall batch, markers (db (snd (saveToDB batch w)))) /\
     (forall now, markers (db (snd (setLastUpdated now w))))).
Proof.
  split; [|split; [|split]].
  - intros req w Hv Hh Hm. rewrite (handle_healthy _ _ Hv Hh).
    pose proof (blacklisted_in_present (db w) (Body req) Hm) as Hp.
    destruct (blacklisted_in (db w) (Body req)); simpl; split; split.
    + discriminate.
    + intros Hn. exfalso. apply Hn, Hp. reflexivity.
    + intros _. by apply Hp.
    + reflexivity.
    + intros _ Hq. apply Hp in Hq. discriminate Hq.
    + reflexivity.
    + discriminate.
    + intros Hq. apply Hp in Hq. discriminate Hq.
  - intros req w Hv Hh He. rewrite (handle_healthy _ _ Hv Hh), He. reflexivity.
  - intros req remote resp [d fs s t] Hv Hg He Hf Hsz Hin. simpl in Hf. subst fs.
    destruct (downloadUpdate_healthy remote resp d s t Hg Hsz)
      as (d' & -> & Hall & _).
    rewrite He. split; [reflexivity|].
    rewrite handle_healthy; [|assumption|by left]. simpl.
    by rewrite (Hall _ Hin).
  - split.
    + intros b k Hb. rewrite lookup_empty in Hb. discriminate Hb.
    + exact writers_keep_markers.
Qed.

Lemma membership_query_result_witness :
  Written (fst (handlePassportValid (query "123456789") sampleWorld)) = "valid" /\
  Written (fst (handlePassportValid (query "123456789")
                  (snd (downloadUpdate goodFeed sampleWorld)))) = "invalid".
Proof.
  destruct membership_query_result as (_ & H2 & H3 & _).
  split.
  - apply H2; [|left; reflexivity|reflexivity].
    repeat split. simpl. lia.
  - apply (H3 (query "123456789") goodFeed
              (mkStream (feedLine "123456789") io_EOF) sampleWorld).
    + repeat split. simpl. lia.
    + reflexivity.
    + reflexivity.
    + reflexivity.
    + intros x [<-|[]]. vm_compute. discriminate.
    + left. reflexivity.
Defined.

(** ** Storage errors *)

(** C4 fails on the code in two places.  The commit of a full batch in
    the read loop fails and the run still reports success, with the
    timestamp written and the batch not in the store.  The read of the
    timestamp fails and the staleness check reports no error (and, the
    timestamp not having been read, reports the data outdated where
    the same check on a store without the fault does not). *)
Theorem storage_errors_dropped :
  (fst (saveToDB (tokens (feedOf 1000 "123456789")) failingCommit) = Some diskFull /\
   fst (downloadUpdate fullBatchFeed failingCommit) = (true, None) /\
   blacklisted_in (db (snd (downloadUpdate fullBatchFeed failingCommit)))
                  "123456789" = false /\
   (db (snd (downloadUpdate fullBatchFeed failingCommit)) !! "ustatus")
     = Some {[ "updated" := "Sat, 31 Oct 2026 12:30:00 UTC" ]}) /\
  (Time.Parse Time.RFC1123 "Sat, 31 Oct 2026 12:00:00 UTC" = Ok noon /\
   fst (remoteUpdated Time.Parse noon failingRead) = (true, None) /\
   fst (remoteUpdated Time.Parse noon (afterTx failingRead)) = (false, None)).
Proof. repeat split; vm_compute; reflexivity. Qed.

(** ** The orchestrator *)

(** The transactions touch neither the trace nor the status. *)
Lemma db_Update_frame (fn : DB -> DB * option error) (w : World) :
  trace (snd (db_Update fn w)) = trace w /\
  synced (snd (db_Update fn w)) = synced w.
Proof.
  rewrite db_Update_spec.
  destruct (default Bolt.Healthy (head (faults w)));
    destruct (fn (db w)) as [d' [e'|]]; simpl; auto.
Qed.

Lemma readLoop_frame (input : string) :
  forall (st : Loop) (w : World),
    trace (snd (readLoop input st w)) = trace w /\
    synced (snd (readLoop input st w)) = synced w.
Proof.
  induction input as [|c input IH]; intros st w; [simpl; auto|].
  cbn [readLoop]. unfold mbind, M_bind, flushFull.
  destruct (Nat.leb 1000 (savedLines (scanByte c st))).
  - unfold mbind, M_bind, saveToDB.
    destruct (db_Update_frame
                (fun d => let b := Bolt.CreateBucketIfNotExists d "passports" in
                          let (b', err) := putLines (lines (scanByte c st)) b in
                          (<["passports" := b']> d, err)) w) as [Ht Hs].
    destruct (db_Update _ w) as [e w1]. simpl in Ht, Hs.
    unfold mret, M_ret. rewrite <- Ht, <- Hs. apply IH.
  - unfold mret, M_ret. apply IH.
Qed.

(** A pipeline run adds the GET to the trace and nothing else. *)
Lemma downloadUpdate_frame (remote : Remote) (w : World) :
  trace (snd (downloadUpdate remote w)) = trace w ++ [Http_GET] /\
  synced (snd (downloadUpdate remote w)) = synced w.
Proof.
  destruct (downloadUpdate remote w) as [res w'] eqn:Hrun.
  unfold downloadUpdate in Hrun.
  unfold mbind at 1, M_bind at 1, emit in Hrun. cbv beta iota in Hrun.
  set (w1 := mkWorld (db w) (faults w) (synced w) (trace w ++ [Http_GET])) in Hrun.
  simpl.
  assert (E1 : trace w ++ [Http_GET] = trace w1) by reflexivity.
  assert (E2 : synced w = synced w1) by reflexivity.
  rewrite E1, E2. clear E1 E2. clearbody w1.
  destruct (http_Get remote) as [resp|e]; [|inversion Hrun; auto].
  unfold mbind at 1, M_bind at 1 in Hrun.
  destruct (readLoop_frame (data resp) Loop0 w1) as [Ht Hs].
  destruct (readLoop (data resp) Loop0 w1) as [st w2]. simpl in Ht, Hs.
  rewrite <- Ht, <- Hs. clear Ht Hs.
  unfold mbind at 1, M_bind at 1 in Hrun.
  assert (Hsave : forall w3 e,
    (if Nat.ltb 0 (List.length (lines st)) then saveToDB (lines st) else mret None) w2
      = (e, w3) -> trace w3 = trace w2 /\ synced w3 = synced w2).
  { intros w3 e. destruct (Nat.ltb 0 (List.length (lines st))).
    - unfold saveToDB. intros H.
      match type of H with db_Update ?f _ = _ =>
        destruct (db_Update_frame f w2) as [Ht Hs] end.
      rewrite H in Ht, Hs. auto.
    - intros H. inversion H. auto. }
  destruct ((if Nat.ltb 0 (List.length (lines st))
             then saveToDB (lines st) else mret None) w2) as [e w3] eqn:Hfin.
  destruct (Hsave w3 e eq_refl) as [<- <-]. clear Hsave Hfin.
  destruct e as [e|]; [inversion Hrun; auto|].
  destruct (is_EOF (rdrErr resp)); [|inversion Hrun; auto].
  simpl in Hrun. unfold mbind, M_bind, setLastUpdated in Hrun.
  match type of Hrun with context [db_Update ?f w3] =>
    destruct (db_Update_frame f w3) as [Ht Hs];
    destruct (db_Update f w3) as [e w4] end.
  simpl in Ht, Hs. rewrite <- Ht, <- Hs.
  destruct e; inversion Hrun; auto.
Qed.

Section Staleness.

Variable Parse : string -> string -> result Z.

(** With no timestamp in the store, the check compares with the
    layout string read as a time. *)
Lemma remoteUpdated_absent (remoteTime t0 : Z) (w : World) :
  lastUpdated (db w) = "" ->
  Parse Time.RFC1123 Time.RFC1123 = Ok t0 ->
  remoteUpdated Parse remoteTime w
    = ((Time.After remoteTime t0, None), afterTx w).
Proof.
  intros Ha Hp. unfold remoteUpdated, lastUpdated in *.
  unfold mbind, M_bind. rewrite db_View_spec.
  assert (Hfn : (match db w !! "ustatus" with
                 | None => (Time.RFC1123, @None error)
                 | Some b =>
                     if String.eqb (Bolt.Get b "updated") ""
                     then (Time.RFC1123, None)
                     else (Bolt.Get b "updated", None)
                 end) = (Time.RFC1123, None)).
  { destruct (db w !! "ustatus") as [b|]; [|reflexivity].
    rewrite Ha. reflexivity. }
  rewrite Hfn.
  destruct (default Bolt.Healthy (head (faults w))); rewrite Hp;
    destruct (Time.After remoteTime t0); reflexivity.
Qed.

(** With a timestamp that the transaction gets to read, it compares
    with that. *)
Lemma remoteUpdated_read (remoteTime u : Z) (w : World) :
  beginsNext w ->
  lastUpdated (db w) <> "" ->
  Parse Time.RFC1123 (lastUpdated (db w)) = Ok u ->
  remoteUpdated Parse remoteTime w
    = ((Time.After remoteTime u, None), afterTx w).
Proof.
  intros Hb Hv Hp. unfold remoteUpdated, lastUpdated, beginsNext in *.
  unfold mbind, M_bind. rewrite db_View_spec.
  destruct (db w !! "ustatus") as [b|]; [|contradiction].
  destruct (String.eqb_spec (Bolt.Get b "updated") ""); [contradiction|].
  destruct (head (faults w)) as [[| |]|]; simpl;
    try (exfalso; by eapply Hb); rewrite Hp;
    destruct (Time.After remoteTime u); reflexivity.
Qed.

End Staleness.

(** The claim C1 as stated fails in both of its cases.  With no
    timestamp in the store and a feed last modified before the moment
    the layout string names, the feed is taken as up to date: nothing
    is sent and nothing is downloaded.  With a timestamp that does not
    parse, the status is set to [failed] and nothing is downloaded. *)
Lemma absent_or_unparsable_without_refresh :
  (lastUpdated (db sampleWorld) = "" /\
   trace (snd (performUpdate Time.Parse oldFeed sampleWorld)) = [Http_HEAD]) /\
  (Time.Parse Time.RFC1123 (lastUpdated (db unreadableTimestamp))
     = Fail (Err pkg_time "parsing time yesterday") /\
   trace (snd (performUpdate Time.Parse goodFeed unreadableTimestamp))
     = [Http_HEAD; Send_lastStatus failed] /\
   synced (snd (performUpdate Time.Parse goodFeed unreadableTimestamp)) = failed).
Proof. repeat split; vm_compute; reflexivity. Qed.

(** C1, amended.  With no timestamp in the store ([ustatus] or its
    [updated] value missing or empty) the staleness check compares the
    feed's modification time with the moment the layout string names
    (2 January 2006, 15:04:05): a feed modified after that moment is
    taken as outdated, and the update goes on to set [processing] and
    to run the pipeline. *)
Theorem absent_timestamp_refreshes
        (Parse : string -> string -> result Z)
        (remote : Remote) (w : World) (hdr : string) (t t0 : Z) :
  http_NewRequest remote = None ->
  http_Head remote = Ok hdr ->
  Parse Time.RFC1123 (Strings.TrimSpace hdr) = Ok t ->
  lastUpdated (db w) = "" ->
  Parse Time.RFC1123 Time.RFC1123 = Ok t0 ->
  (t0 < t)%Z ->
  exists rest,
    trace (snd (performUpdate Parse remote w))
      = trace w ++ [Http_HEAD; Send_lastStatus processing; Http_GET] ++ rest.
Proof.
  intros Hn Hh Hp Ha Hp0 Hlt.
  destruct (performUpdate Parse remote w) as [[] w'] eqn:Hrun.
  unfold performUpdate in Hrun. rewrite Hn, Hh, Hp in Hrun.
  unfold mbind at 1, M_bind at 1, emit in Hrun. cbv beta iota in Hrun.
  unfold mbind at 1, M_bind at 1 in Hrun.
  rewrite (remoteUpdated_absent Parse t t0
             (mkWorld (db w) (faults w) (synced w) (trace w ++ [Http_HEAD]))
             Ha Hp0) in Hrun.
  assert (Haf : Time.After t t0 = true) by (apply Z.ltb_lt; exact Hlt).
  rewrite Haf in Hrun. cbn [notNil orb] in Hrun.
  unfold mbind at 1, M_bind at 1, send_lastStatus at 1 in Hrun.
  cbv beta iota in Hrun. cbn [afterTx db faults synced trace] in Hrun.
  unfold mbind at 1, M_bind at 1 in Hrun.
  match type of Hrun with context [downloadUpdate remote ?w2] =>
    destruct (downloadUpdate_frame remote w2) as [Ht _];
    destruct (downloadUpdate remote w2) as [[success err] w3]
  end.
  cbn [snd trace] in Ht.
  destruct (notNil err || negb success)%bool.
  - exists [Send_lastStatus failed; Go_updateRequired].
    unfold mbind, M_bind, send_lastStatus, go_send_updateRequired, emit in Hrun.
    inversion Hrun. simpl. rewrite Ht. by rewrite <- !List.app_assoc.
  - exists [Send_lastStatus ready].
    unfold send_lastStatus in Hrun.
    inversion Hrun. simpl. rewrite Ht. by rewrite <- !List.app_assoc.
Qed.

Lemma absent_timestamp_refreshes_witness :
  exists rest,
    trace (snd (performUpdate Time.Parse goodFeed sampleWorld))
      = trace sampleWorld ++ [Http_HEAD; Send_lastStatus processing; Http_GET] ++ rest.
Proof.
  apply (absent_timestamp_refreshes Time.Parse goodFeed sampleWorld
           "Sat, 31 Oct 2026 12:00:00 GMT" noon 1136214245);
    try reflexivity.
Defined.

(** ** The staleness gate *)

(** The claim C5 as stated fails.  A probe that cannot reach the feed
    sets [failed]; at the next signal the feed answers, it is not newer
    than the timestamp in the store, nothing is downloaded, and the
    status is still [failed]. *)
Lemma gate_leaves_failed_status :
  let w1 := snd (performUpdate Time.Parse unreachableFeed stampedStore) in
  let w2 := snd (performUpdate Time.Parse goodFeed w1) in
  synced stampedStore = ready /\
  trace w1 = [Http_HEAD; Send_lastStatus failed] /\
  trace w2 = [Http_HEAD; Send_lastStatus failed; Http_HEAD] /\
  synced w2 = failed /\ synced w2 <> ready.
Proof. repeat split; vm_compute; (reflexivity || discriminate). Qed.

(** C5, amended.  When the feed's modification time is not strictly
    after the timestamp read from the store, the update does not run
    the pipeline and sends no status: the status is what it was before
    ([ready] if it was [ready], [failed] if it was [failed]), and the
    store is as before. *)
Theorem staleness_gate_keeps_status
        (Parse : string -> string -> result Z)
        (remote : Remote) (w : World) (hdr : string) (t u : Z) :
  http_NewRequest remote = None ->
  http_Head remote = Ok hdr ->
  Parse Time.RFC1123 (Strings.TrimSpace hdr) = Ok t ->
  beginsNext w ->
  lastUpdated (db w) <> "" ->
  Parse Time.RFC1123 (lastUpdated (db w)) = Ok u ->
  (t <= u)%Z ->
  trace (snd (performUpdate Parse remote w)) = trace w ++ [Http_HEAD] /\
  synced (snd (performUpdate Parse remote w)) = synced w /\
  db (snd (performUpdate Parse remote w)) = db w.
Proof.
  intros Hn Hh Hp Hb Hv Hpu Hle.
  unfold performUpdate. rewrite Hn, Hh, Hp.
  unfold mbind, M_bind, emit. cbv beta iota.
  rewrite (remoteUpdated_read Parse t u
             (mkWorld (db w) (faults w) (synced w) (trace w ++ [Http_HEAD]))
             Hb Hv Hpu).
  assert (Haf : Time.After t u = false) by (apply Z.ltb_ge; exact Hle).
  rewrite Haf. simpl. auto.
Qed.

Lemma staleness_gate_keeps_status_witness :
  trace (snd (performUpdate Time.Parse goodFeed stampedStore)) = [Http_HEAD] /\
  synced (snd (performUpdate Time.Parse goodFeed stampedStore)) = ready /\
  db (snd (performUpdate Time.Parse goodFeed stampedStore)) = db stampedStore.
Proof.
  apply (staleness_gate_keeps_status Time.Parse goodFeed stampedStore
           "Sat, 31 Oct 2026 12:00:00 GMT" noon (noon + 1800)).
  - reflexivity.
  - reflexivity.
  - reflexivity.
  - intros e. discriminate.
  - discriminate.
  - reflexivity.
  - unfold noon. lia.
Defined.

(** * Further properties *)

(** ** One signal *)

Lemma remoteUpdated_world (Parse : string -> string -> result Z)
      (remoteTime : Z) (w : World) :
  snd (remoteUpdated Parse remoteTime w) = afterTx w.
Proof.
  unfold remoteUpdated. unfold mbind, M_bind. rewrite db_View_spec.
  destruct (default Bolt.Healthy (head (faults w)));
    destruct (db w !! "ustatus") as [b|];
    try destruct (String.eqb (Bolt.Get b "updated") "");
    match goal with |- context [Parse ?l ?v] => destruct (Parse l v) end;
    try destruct (negb _); reflexivity.
Qed.

(** What one [performUpdate] does to the trace, the status, and the
    faults. *)
Lemma performUpdate_shape (Parse : string -> string -> result Z)
      (remote : Remote) (w : World) :
  exists ev,
    trace (snd (performUpdate Parse remote w)) = trace w ++ ev /\
    In ev updateShapes /\
    synced (snd (performUpdate Parse remote w)) = statusAfter (synced w) ev.
Proof.
  destruct (performUpdate Parse remote w) as [[] w'] eqn:Hrun.
  unfold performUpdate in Hrun.
  destruct (http_NewRequest remote) as [e|].
  { exists [Send_lastStatus failed]. inversion Hrun. simpl. tauto. }
  unfold mbind at 1, M_bind at 1, emit in Hrun. cbv beta iota in Hrun.
  destruct (http_Head remote) as [hdr|e].
  2:{ exists [Http_HEAD; Send_lastStatus failed]. inversion Hrun. simpl.
      rewrite <- List.app_assoc. simpl. tauto. }
  destruct (Parse Time.RFC1123 (Strings.TrimSpace hdr)) as [t|e].
  2:{ exists [Http_HEAD; Send_lastStatus failed]. inversion Hrun. simpl.
      rewrite <- List.app_assoc. simpl. tauto. }
  unfold mbind at 1, M_bind at 1 in Hrun.
  match type of Hrun with context [remoteUpdated Parse t ?w1] =>
    pose proof (remoteUpdated_world Parse t w1) as Hw;
    destruct (remoteUpdated Parse t w1) as [[outdated err] w2]
  end.
  simpl in Hw. subst w2. unfold afterTx in Hrun. cbn [db faults synced trace] in Hrun.
  destruct err as [e|]; cbn [notNil] in Hrun.
  { exists [Http_HEAD; Send_lastStatus failed]. inversion Hrun. simpl.
    rewrite <- List.app_assoc. simpl. tauto. }
  destruct outdated; cbn [orb] in Hrun.
  2:{ exists [Http_HEAD]. inversion Hrun. simpl. tauto. }
  unfold mbind at 1, M_bind at 1, send_lastStatus at 1 in Hrun.
  cbv beta iota in Hrun. cbn [db faults synced trace] in Hrun.
  unfold mbind at 1, M_bind at 1 in Hrun.
  match type of Hrun with context [downloadUpdate remote ?w2] =>
    destruct (downloadUpdate_frame remote w2) as [Ht Hs];
    destruct (downloadUpdate remote w2) as [[success err] w3]
  end.
  cbn [snd trace synced] in Ht, Hs.
  destruct (notNil err || negb success)%bool.
  - exists [Http_HEAD; Send_lastStatus processing; Http_GET;
            Send_lastStatus failed; Go_updateRequired].
    unfold mbind, M_bind, send_lastStatus, go_send_updateRequired, emit in Hrun.
    inversion Hrun. simpl. rewrite Ht. rewrite <- !List.app_assoc. simpl. tauto.
  - exists [Http_HEAD; Send_lastStatus processing; Http_GET; Send_lastStatus ready].
    unfold send_lastStatus in Hrun.
    inversion Hrun. simpl. rewrite Ht. rewrite <- !List.app_assoc. simpl. tauto.
Qed.

Lemma downloads_app (t ev : list event) :
  downloads (t ++ ev) = downloads t + downloads ev.
Proof. unfold downloads. by rewrite List.filter_app, List.length_app. Qed.

Lemma signals_app (t ev : list event) :
  signals (t ++ ev) = signals t + signals ev.
Proof. unfold signals. by rewrite List.filter_app, List.length_app. Qed.

(** X1. Whatever the remote side and the store do, one [performUpdate]
    adds to the trace one of five event sequences.  So it starts at
    most one download, sends [processing] only right before it and
    always sends [ready] or [failed] after it, and hands over a retry
    signal exactly when the status it leaves after a download is
    [failed]; without a download it hands over none. *)
Theorem one_signal_event_shapes (Parse : string -> string -> result Z)
        (remote : Remote) (w : World) :
  exists ev,
    trace (snd (performUpdate Parse remote w)) = trace w ++ ev /\
    In ev updateShapes /\
    synced (snd (performUpdate Parse remote w)) = statusAfter (synced w) ev /\
    downloads ev <= 1 /\
    signals ev <= downloads ev /\
    (downloads ev = 1 ->
     (signals ev = 1 <-> synced (snd (performUpdate Parse remote w)) = failed) /\
     (signals ev = 0 <-> synced (snd (performUpdate Parse remote w)) = ready)).
Proof.
  destruct (performUpdate_shape Parse remote w) as (ev & Ht & Hin & Hs).
  exists ev. rewrite Hs. repeat split; try assumption;
    simpl in Hin;
    destruct Hin as [<-|[<-|[<-|[<-|[<-|[]]]]]]; cbn; try lia;
    try discriminate; try reflexivity.
Qed.

(** ** The signal loop *)

Lemma updateManager_cons (Parse : string -> string -> result Z)
      (remote : Remote) (rest : list Remote) (w : World) :
  updateManager Parse (remote :: rest) w =
    updateManager Parse rest (snd (performUpdate Parse remote w)).
Proof.
  cbn [updateManager]. unfold mbind, M_bind.
  destruct (performUpdate Parse remote w) as [[] w1]. reflexivity.
Qed.

(** X2. The signal loop never leaves the status at [processing], and
    it starts at most one download and hands over at most one retry
    signal per signal it consumes. *)
Theorem signal_loop_invariants (Parse : string -> string -> result Z)
        (consumed : list Remote) (w : World) :
  synced w <> processing ->
  synced (snd (updateManager Parse consumed w)) <> processing /\
  downloads (trace (snd (updateManager Parse consumed w)))
    <= downloads (trace w) + List.length consumed /\
  signals (trace (snd (updateManager Parse consumed w)))
    <= signals (trace w) + List.length consumed.
Proof.
  revert w. induction consumed as [|remote rest IH]; intros w Hs.
  - simpl. repeat split; [assumption|lia|lia].
  - rewrite updateManager_cons.
    destruct (performUpdate_shape Parse remote w) as (ev & Ht & Hin & Hst).
    assert (Hs1 : synced (snd (performUpdate Parse remote w)) <> processing).
    { rewrite Hst. simpl in Hin.
      destruct Hin as [<-|[<-|[<-|[<-|[<-|[]]]]]]; cbn;
        try discriminate; assumption. }
    destruct (IH _ Hs1) as (H1 & H2 & H3). rewrite Ht in H2, H3.
    rewrite downloads_app in H2. rewrite signals_app in H3.
    assert (Hb : downloads ev <= 1 /\ signals ev <= 1).
    { simpl in Hin.
      destruct Hin as [<-|[<-|[<-|[<-|[<-|[]]]]]]; cbn; lia. }
    simpl. repeat split; [assumption|lia|lia].
Qed.

Lemma signal_loop_invariants_witness :
  synced (snd (updateManager Time.Parse [unreachableFeed; goodFeed; brokenFeed]
                             sampleWorld)) <> processing.
Proof.
  apply (signal_loop_invariants Time.Parse [unreachableFeed; goodFeed; brokenFeed]
                                sampleWorld).
  discriminate.
Defined.

(** ** The probe *)

(** X3. When the probe fails (the request cannot be built, the HEAD
    request fails, or the [Last-Modified] header does not parse, as
    when it is missing), [performUpdate] sets the status to [failed]
    and stops: no transaction on the store, no download, no retry
    signal. *)
Theorem probe_failure_sets_failed (Parse : string -> string -> result Z)
        (remote : Remote) (w : World) :
  probeFails Parse remote ->
  synced (snd (performUpdate Parse remote w)) = failed /\
  db (snd (performUpdate Parse remote w)) = db w /\
  faults (snd (performUpdate Parse remote w)) = faults w /\
  downloads (trace (snd (performUpdate Parse remote w))) = downloads (trace w) /\
  signals (trace (snd (performUpdate Parse remote w))) = signals (trace w).
Proof.
  unfold performUpdate, probeFails.
  intros [[e He]|[[e He]|(hdr & e & Hh & He)]].
  - rewrite He. simpl. rewrite downloads_app, signals_app. cbn.
    repeat split; lia.
  - destruct (http_NewRequest remote); simpl.
    + rewrite downloads_app, signals_app. cbn. repeat split; lia.
    + rewrite He. unfold mbind, M_bind, emit. simpl.
      rewrite !downloads_app, !signals_app. cbn. repeat split; lia.
  - destruct (http_NewRequest remote); simpl.
    + rewrite downloads_app, signals_app. cbn. repeat split; lia.
    + rewrite Hh, He. unfold mbind, M_bind, emit. simpl.
      rewrite !downloads_app, !signals_app. cbn. repeat split; lia.
Qed.

Lemma probe_failure_sets_failed_witness :
  synced (snd (performUpdate Time.Parse headerless sampleWorld)) = failed /\
  db (snd (performUpdate Time.Parse headerless sampleWorld)) = db sampleWorld.
Proof.
  destruct (probe_failure_sets_failed Time.Parse headerless sampleWorld)
    as (H1 & H2 & _).
  - right. right. exists "", (Err pkg_time "parsing time "). split; reflexivity.
  - split; assumption.
Defined.

(** ** A timestamp that does not parse *)

Lemma remoteUpdated_unparsable (Parse : string -> string -> result Z)
      (remoteTime : Z) (e : error) (w : World) :
  beginsNext w ->
  lastUpdated (db w) <> "" ->
  Parse Time.RFC1123 (lastUpdated (db w)) = Fail e ->
  remoteUpdated Parse remoteTime w = ((true, Some e), afterTx w).
Proof.
  intros Hb Hv Hp. unfold remoteUpdated, lastUpdated, beginsNext in *.
  unfold mbind, M_bind. rewrite db_View_spec.
  destruct (db w !! "ustatus") as [b|]; [|contradiction].
  destruct (String.eqb_spec (Bolt.Get b "updated") ""); [contradiction|].
  destruct (head (faults w)) as [[| |]|]; simpl;
    try (exfalso; by eapply Hb); rewrite Hp; reflexivity.
Qed.

Lemma performUpdate_unparsable (Parse : string -> string -> result Z)
      (remote : Remote) (e : error) (w : World) :
  faults w = [] ->
  lastUpdated (db w) <> "" ->
  Parse Time.RFC1123 (lastUpdated (db w)) = Fail e ->
  db (snd (performUpdate Parse remote w)) = db w /\
  faults (snd (performUpdate Parse remote w)) = [] /\
  synced (snd (performUpdate Parse remote w)) = failed /\
  downloads (trace (snd (performUpdate Parse remote w))) = downloads (trace w) /\
  signals (trace (snd (performUpdate Parse remote w))) = signals (trace w).
Proof.
  intros Hf Hv Hp. unfold performUpdate.
  destruct (http_NewRequest remote).
  { simpl. rewrite downloads_app, signals_app. cbn. repeat split; auto; lia. }
  unfold mbind at 1, M_bind at 1, emit. cbv beta iota.
  destruct (http_Head remote) as [hdr|e1].
  2:{ simpl. rewrite !downloads_app, !signals_app. cbn. repeat split; auto; lia. }
  destruct (Parse Time.RFC1123 (Strings.TrimSpace hdr)) as [t|e1].
  2:{ simpl. rewrite !downloads_app, !signals_app. cbn. repeat split; auto; lia. }
  unfold mbind, M_bind.
  rewrite (remoteUpdated_unparsable Parse t e
             (mkWorld (db w) (faults w) (synced w) (trace w ++ [Http_HEAD]))).
  - simpl. rewrite Hf. rewrite !downloads_app, !signals_app. cbn.
    repeat split; auto; lia.
  - intros e1. simpl. rewrite Hf. discriminate.
  - exact Hv.
  - exact Hp.
Qed.

(** X4. With a timestamp in the store that does not parse, on a store
    without faults, no signal ever leads to a download: after any
    number of signals the store is as it was (the timestamp included),
    no download was started, no retry signal was handed over, and from
    the first signal on the status is [failed]. *)
Theorem unparsable_timestamp_blocks_refresh
        (Parse : string -> string -> result Z)
        (consumed : list Remote) (e : error) (w : World) :
  faults w = [] ->
  lastUpdated (db w) <> "" ->
  Parse Time.RFC1123 (lastUpdated (db w)) = Fail e ->
  db (snd (updateManager Parse consumed w)) = db w /\
  downloads (trace (snd (updateManager Parse consumed w))) = downloads (trace w) /\
  signals (trace (snd (updateManager Parse consumed w))) = signals (trace w) /\
  (consumed <> [] -> synced (snd (updateManager Parse consumed w)) = failed).
Proof.
  revert w. induction consumed as [|remote rest IH]; intros w Hf Hv Hp.
  - simpl. repeat split. intros H. contradiction.
  - rewrite updateManager_cons.
    destruct (performUpdate_unparsable Parse remote e w Hf Hv Hp)
      as (Hd & Hf1 & Hs1 & Hg1 & Hr1).
    destruct (IH (snd (performUpdate Parse remote w))) as (H1 & H2 & H3 & H4).
    + exact Hf1.
    + by rewrite Hd.
    + by rewrite Hd.
    + repeat split; try congruence.
      intros _. destruct rest as [|r rest']; [exact Hs1|apply H4; discriminate].
Qed.

Lemma unparsable_timestamp_blocks_refresh_witness :
  db (snd (updateManager Time.Parse [goodFeed; goodFeed] unreadableTimestamp))
    = db unreadableTimestamp /\
  downloads (trace (snd (updateManager Time.Parse [goodFeed; goodFeed]
                                       unreadableTimestamp))) = 0.
Proof.
  destruct (unparsable_timestamp_blocks_refresh Time.Parse [goodFeed; goodFeed]
              (Err pkg_time "parsing time yesterday") unreadableTimestamp)
    as (H1 & H2 & _).
  - reflexivity.
  - discriminate.
  - reflexivity.
  - split; assumption.
Defined.

(** ** What a refresh does to the store *)

Lemma keepsEntries_refl (w : World) : keepsEntries w w.
Proof. intros k _. reflexivity. Qed.

Lemma keepsEntries_trans (w1 w2 w3 : World) :
  keepsEntries w1 w2 -> keepsEntries w2 w3 -> keepsEntries w1 w3.
Proof.
  intros H12 H23 k Hk. rewrite <- (H12 k Hk). apply H23. by rewrite (H12 k Hk).
Qed.

Lemma onlyIngests_refl (w : World) : onlyIngests w w.
Proof. split; [reflexivity|apply keepsEntries_refl]. Qed.

Lemma onlyIngests_trans (w1 w2 w3 : World) :
  onlyIngests w1 w2 -> onlyIngests w2 w3 -> onlyIngests w1 w3.
Proof.
  intros [Ht1 Hk1] [Ht2 Hk2]. split; [congruence|].
  by apply (keepsEntries_trans w1 w2 w3).
Qed.

Lemma saveToDB_onlyIngests (ls : list string) (w : World) :
  onlyIngests w (snd (saveToDB ls w)).
Proof.
  split.
  - destruct (saveToDB_cases ls w) as [[e ->]|(b' & _ & ->)]; simpl;
      [reflexivity|].
    unfold lastUpdated. by rewrite lookup_insert_ne.
  - intros k Hk. by apply saveToDB_keeps.
Qed.

Lemma readLoop_onlyIngests (input : string) :
  forall (st : Loop) (w : World), onlyIngests w (snd (readLoop input st w)).
Proof.
  induction input as [|c input IH]; intros st w; [apply onlyIngests_refl|].
  cbn [readLoop]. unfold mbind, M_bind, flushFull.
  destruct (Nat.leb 1000 (savedLines (scanByte c st))).
  - unfold mbind, M_bind.
    pose proof (saveToDB_onlyIngests (lines (scanByte c st)) w) as Hs.
    destruct (saveToDB (lines (scanByte c st)) w) as [e w1]. simpl in Hs.
    unfold mret, M_ret. eapply onlyIngests_trans; [exact Hs|apply IH].
  - unfold mret, M_ret. apply IH.
Qed.

(** The two outcomes of [setLastUpdated]: an error and the database as
    it was, or no error and the [ustatus] bucket with what [Put] made
    of it. *)
Lemma setLastUpdated_cases (now : string) (w : World) :
  (exists e, setLastUpdated now w = (Some e, afterTx w)) \/
  setLastUpdated now w =
    (None,
     mkWorld (<["ustatus" :=
                  fst (Bolt.Put (Bolt.CreateBucketIfNotExists (db w) "ustatus")
                                "updated" now)]> (db w))
             (tail (faults w)) (synced w) (trace w)).
Proof.
  unfold setLastUpdated. rewrite db_Update_spec.
  destruct (Bolt.Put (Bolt.CreateBucketIfNotExists (db w) "ustatus") "updated" now)
    as [b' e].
  destruct (default Bolt.Healthy (head (faults w))); simpl; eauto.
Qed.

(** A pipeline run is a sequence of ingests, followed by the write of
    the timestamp exactly when the run returns success. *)
Lemma downloadUpdate_cases (remote : Remote) (w : World) :
  exists w3,
    onlyIngests w w3 /\
    ((fst (downloadUpdate remote w) <> (true, None) /\
      db (snd (downloadUpdate remote w)) = db w3) \/
     (fst (downloadUpdate remote w) = (true, None) /\
      setLastUpdated (time_Now remote) w3 = (None, snd (downloadUpdate remote w)))).
Proof.
  destruct (downloadUpdate remote w) as [res w'] eqn:Hrun.
  unfold downloadUpdate in Hrun.
  unfold mbind at 1, M_bind at 1, emit in Hrun. cbv beta iota in Hrun.
  set (w1 := mkWorld (db w) (faults w) (synced w) (trace w ++ [Http_GET])) in Hrun.
  assert (H1 : onlyIngests w w1)
    by (split; [reflexivity|intros k _; reflexivity]).
  clearbody w1. simpl.
  destruct (http_Get remote) as [resp|e].
  2:{ exists w1. split; [assumption|]. left. inversion Hrun. split; [discriminate|reflexivity]. }
  unfold mbind at 1, M_bind at 1 in Hrun.
  pose proof (readLoop_onlyIngests (data resp) Loop0 w1) as H2.
  destruct (readLoop (data resp) Loop0 w1) as [st w2]. simpl in H2.
  unfold mbind at 1, M_bind at 1 in Hrun.
  assert (H3 : onlyIngests w2
    (snd ((if Nat.ltb 0 (List.length (lines st))
           then saveToDB (lines st) else mret None) w2))).
  { destruct (Nat.ltb 0 (List.length (lines st)));
      [apply saveToDB_onlyIngests|apply onlyIngests_refl]. }
  destruct ((if Nat.ltb 0 (List.length (lines st))
             then saveToDB (lines st) else mret None) w2) as [e w3].
  simpl in H3.
  assert (H : onlyIngests w w3).
  { eapply onlyIngests_trans; [exact H1|].
    eapply onlyIngests_trans; [exact H2|exact H3]. }
  exists w3. split; [assumption|].
  destruct e as [e|].
  { left. inversion Hrun. split; [discriminate|reflexivity]. }
  destruct (is_EOF (rdrErr resp)); simpl in Hrun.
  2:{ left. inversion Hrun. split; [discriminate|reflexivity]. }
  unfold mbind, M_bind in Hrun.
  destruct (setLastUpdated_cases (time_Now remote) w3) as [[e He]|He];
    rewrite He in Hrun; inversion Hrun.
  - left. split; [discriminate|reflexivity].
  - right. split; [reflexivity|exact He].
Qed.

Lemma lastUpdated_after_Put (d : DB) (now : string) :
  (Z.of_nat (String.length now) <= Bolt.MaxValueSize)%Z ->
  lastUpdated
    (<["ustatus" := fst (Bolt.Put (Bolt.CreateBucketIfNotExists d "ustatus")
                                  "updated" now)]> d) = now.
Proof.
  intros Hsz. unfold lastUpdated. rewrite lookup_insert_eq.
  unfold Bolt.Put. simpl.
  destruct (Z.ltb_spec Bolt.MaxValueSize (Z.of_nat (String.length now))); [lia|].
  simpl. apply Get_insert_eq.
Qed.

Lemma downloadUpdate_timestamp (remote : Remote) (w : World) :
  (Z.of_nat (String.length (time_Now remote)) <= Bolt.MaxValueSize)%Z ->
  (fst (downloadUpdate remote w) = (true, None) ->
   lastUpdated (db (snd (downloadUpdate remote w))) = time_Now remote) /\
  (fst (downloadUpdate remote w) <> (true, None) ->
   lastUpdated (db (snd (downloadUpdate remote w))) = lastUpdated (db w)).
Proof.
  intros Hsz.
  destruct (downloadUpdate_cases remote w)
    as (w3 & [Ht _] & [[Hf Hd]|[Hs Hset]]).
  - split; [contradiction|]. intros _. by rewrite Hd.
  - split; [|contradiction]. intros _.
    destruct (setLastUpdated_cases (time_Now remote) w3) as [[e He]|He];
      rewrite He in Hset; inversion Hset as [Hw].
    simpl. by apply lastUpdated_after_Put.
Qed.

(** X5. The timestamp of the last update changes exactly when a
    pipeline run returns success: then it is the clock reading of the
    run; after a run that returns failure it is what it was. *)
Theorem timestamp_written_iff_success (remote : Remote) (w : World) :
  (Z.of_nat (String.length (time_Now remote)) <= Bolt.MaxValueSize)%Z ->
  (fst (downloadUpdate remote w) = (true, None) ->
   lastUpdated (db (snd (downloadUpdate remote w))) = time_Now remote) /\
  (fst (downloadUpdate remote w) <> (true, None) ->
   lastUpdated (db (snd (downloadUpdate remote w))) = lastUpdated (db w)).
Proof. exact (downloadUpdate_timestamp remote w). Qed.

Lemma timestamp_written_iff_success_witness :
  lastUpdated (db (snd (downloadUpdate goodFeed sampleWorld)))
    = "Sat, 31 Oct 2026 12:30:00 UTC" /\
  lastUpdated (db (snd (downloadUpdate brokenFeed sampleWorld))) = "".
Proof.
  destruct (timestamp_written_iff_success goodFeed sampleWorld) as [H1 _];
    [vm_compute; discriminate|].
  destruct (timestamp_written_iff_success brokenFeed sampleWorld) as [_ H2];
    [vm_compute; discriminate|].
  split.
  - apply H1. reflexivity.
  - apply H2. vm_compute. discriminate.
Defined.

Lemma downloadUpdate_keepsEntries (remote : Remote) (w : World) :
  keepsEntries w (snd (downloadUpdate remote w)).
Proof.
  destruct (downloadUpdate_cases remote w)
    as (w3 & [_ Hk] & [[_ Hd]|[_ Hset]]).
  - intros k Hk0. rewrite Hd. by apply Hk.
  - destruct (setLastUpdated_cases (time_Now remote) w3) as [[e He]|He];
      rewrite He in Hset; inversion Hset as [Hw].
    intros k Hk0. simpl. rewrite stored_other_bucket by discriminate.
    by apply Hk.
Qed.

(** One [performUpdate] either leaves the database alone and starts no
    download, or it is a download between [startDownload] and
    [finishDownload]. *)
Lemma performUpdate_cases (Parse : string -> string -> result Z)
      (remote : Remote) (w : World) :
  (db (snd (performUpdate Parse remote w)) = db w /\
   downloads (trace (snd (performUpdate Parse remote w))) = downloads (trace w)) \/
  snd (performUpdate Parse remote w)
    = finishDownload (downloadUpdate remote (startDownload w)).
Proof.
  destruct (performUpdate Parse remote w) as [[] w'] eqn:Hrun.
  unfold performUpdate in Hrun.
  destruct (http_NewRequest remote).
  { left. inversion Hrun. simpl. rewrite downloads_app. cbn.
    split; [reflexivity|lia]. }
  unfold mbind at 1, M_bind at 1, emit in Hrun. cbv beta iota in Hrun.
  destruct (http_Head remote) as [hdr|e1].
  2:{ left. inversion Hrun. simpl. rewrite !downloads_app. cbn.
      split; [reflexivity|lia]. }
  destruct (Parse Time.RFC1123 (Strings.TrimSpace hdr)) as [t|e1].
  2:{ left. inversion Hrun. simpl. rewrite !downloads_app. cbn.
      split; [reflexivity|lia]. }
  unfold mbind at 1, M_bind at 1 in Hrun.
  match type of Hrun with context [remoteUpdated Parse t ?w1] =>
    pose proof (remoteUpdated_world Parse t w1) as Hw;
    destruct (remoteUpdated Parse t w1) as [[outdated err] w2]
  end.
  simpl in Hw. subst w2. unfold afterTx in Hrun.
  cbn [db faults synced trace] in Hrun.
  destruct err as [e|]; cbn [notNil] in Hrun.
  { left. inversion Hrun. simpl. rewrite !downloads_app. cbn.
    split; [reflexivity|lia]. }
  destruct outdated; cbn [orb] in Hrun.
  2:{ left. inversion Hrun. simpl. rewrite !downloads_app. cbn.
      split; [reflexivity|lia]. }
  right.
  unfold mbind at 1, M_bind at 1, send_lastStatus at 1 in Hrun.
  cbv beta iota in Hrun. cbn [db faults synced trace] in Hrun.
  rewrite <- List.app_assoc in Hrun. simpl in Hrun.
  unfold startDownload, finishDownload.
  unfold mbind at 1, M_bind at 1 in Hrun.
  destruct (downloadUpdate remote _) as [[success err] w3].
  destruct (notNil err || negb success)%bool.
  - unfold mbind, M_bind, send_lastStatus, go_send_updateRequired, emit in Hrun.
    inversion Hrun. simpl. by rewrite <- List.app_assoc.
  - unfold send_lastStatus in Hrun. inversion Hrun. reflexivity.
Qed.

Lemma performUpdate_keepsEntries (Parse : string -> string -> result Z)
      (remote : Remote) (w : World) :
  keepsEntries w (snd (performUpdate Parse remote w)).
Proof.
  destruct (performUpdate_cases Parse remote w) as [[Hd _]|Hd].
  - intros k _. by rewrite Hd.
  - rewrite Hd.
    pose proof (downloadUpdate_keepsEntries remote (startDownload w)) as Hk.
    destruct (downloadUpdate remote (startDownload w)) as [[success err] w3].
    simpl in Hk. unfold finishDownload.
    destruct (notNil err || negb success)%bool; exact Hk.
Qed.

(** X6. The signal loop never removes or changes an entry of the
    store: whatever the feeds deliver and whatever storage faults
    occur, an identifier that is blacklisted stays blacklisted, with
    the value it has. *)
Theorem refresh_never_removes_entries (Parse : string -> string -> result Z)
        (consumed : list Remote) (w : World) (id : string) :
  blacklisted_in (db w) id = true ->
  stored (db (snd (updateManager Parse consumed w))) (Strings.TrimSpace id)
    = stored (db w) (Strings.TrimSpace id) /\
  blacklisted_in (db (snd (updateManager Parse consumed w))) id = true.
Proof.
  intros Hb. apply blacklisted_in_true in Hb.
  assert (Hk : keepsEntries w (snd (updateManager Parse consumed w))).
  { clear Hb. revert w. induction consumed as [|remote rest IH]; intros w.
    - apply keepsEntries_refl.
    - rewrite updateManager_cons.
      eapply keepsEntries_trans; [apply performUpdate_keepsEntries|apply IH]. }
  split; [by apply Hk|].
  apply blacklisted_in_true. by rewrite (Hk _ Hb).
Qed.

Lemma refresh_never_removes_entries_witness :
  blacklisted_in
    (db (snd (updateManager Time.Parse [brokenFeed; unreachableFeed]
                            (storeWith "987654321")))) "987654321" = true.
Proof.
  apply (refresh_never_removes_entries Time.Parse [brokenFeed; unreachableFeed]
           (storeWith "987654321") "987654321").
  reflexivity.
Defined.

(** ** Two signals in a row *)

Lemma performUpdate_gate (Parse : string -> string -> result Z)
      (remote : Remote) (w : World) (hdr : string) (t u : Z) :
  http_NewRequest remote = None ->
  http_Head remote = Ok hdr ->
  Parse Time.RFC1123 (Strings.TrimSpace hdr) = Ok t ->
  beginsNext w ->
  lastUpdated (db w) <> "" ->
  Parse Time.RFC1123 (lastUpdated (db w)) = Ok u ->
  (t <= u)%Z ->
  snd (performUpdate Parse remote w)
    = mkWorld (db w) (tail (faults w)) (synced w) (trace w ++ [Http_HEAD]).
Proof.
  intros Hn Hh Hp Hb Hv Hpu Hle.
  unfold performUpdate. rewrite Hn, Hh, Hp.
  unfold mbind, M_bind, emit. cbv beta iota.
  rewrite (remoteUpdated_read Parse t u
             (mkWorld (db w) (faults w) (synced w) (trace w ++ [Http_HEAD]))
             Hb Hv Hpu).
  assert (Haf : Time.After t u = false) by (apply Z.ltb_ge; exact Hle).
  rewrite Haf. reflexivity.
Qed.

(** X7. After a signal that downloaded the feed and left the status
    [ready], the timestamp in the store is the clock reading of that
    run; a next signal that finds the feed not modified after that
    reading starts no download, leaves the store and the status
    [ready] as they are, and only issues its HEAD request. *)
Theorem refreshed_store_is_up_to_date
        (Parse : string -> string -> result Z)
        (first next : Remote) (w : World) (hdr : string) (t u : Z) :
  downloads (trace (snd (performUpdate Parse first w))) = S (downloads (trace w)) ->
  synced (snd (performUpdate Parse first w)) = ready ->
  time_Now first <> "" ->
  (Z.of_nat (String.length (time_Now first)) <= Bolt.MaxValueSize)%Z ->
  Parse Time.RFC1123 (time_Now first) = Ok u ->
  beginsNext (snd (performUpdate Parse first w)) ->
  http_NewRequest next = None ->
  http_Head next = Ok hdr ->
  Parse Time.RFC1123 (Strings.TrimSpace hdr) = Ok t ->
  (t <= u)%Z ->
  lastUpdated (db (snd (performUpdate Parse first w))) = time_Now first /\
  trace (snd (performUpdate Parse next (snd (performUpdate Parse first w))))
    = trace (snd (performUpdate Parse first w)) ++ [Http_HEAD] /\
  db (snd (performUpdate Parse next (snd (performUpdate Parse first w))))
    = db (snd (performUpdate Parse first w)) /\
  synced (snd (performUpdate Parse next (snd (performUpdate Parse first w))))
    = ready.
Proof.
  intros Hd Hs Hne Hsz Hpu Hb Hn Hh Hp Hle.
  assert (Hts : lastUpdated (db (snd (performUpdate Parse first w)))
                = time_Now first).
  { destruct (performUpdate_cases Parse first w) as [[_ Hd0]|Hw1]; [lia|].
    rewrite Hw1 in Hs |- *.
    destruct (downloadUpdate_timestamp first (startDownload w) Hsz) as [Hok _].
    destruct (downloadUpdate first (startDownload w)) as [[success err] w3].
    unfold finishDownload in *.
    destruct err as [e|]; [discriminate Hs|].
    destruct success; [|discriminate Hs].
    simpl in *. by apply Hok. }
  split; [exact Hts|].
  rewrite (performUpdate_gate Parse next _ hdr t u Hn Hh Hp Hb).
  - simpl. auto.
  - by rewrite Hts.
  - by rewrite Hts.
  - exact Hle.
Qed.

Lemma refreshed_store_is_up_to_date_witness :
  downloads (trace (snd (performUpdate Time.Parse goodFeed
                           (snd (performUpdate Time.Parse goodFeed sampleWorld)))))
    = 1.
Proof.
  destruct (refreshed_store_is_up_to_date Time.Parse goodFeed goodFeed sampleWorld
              "Sat, 31 Oct 2026 12:00:00 GMT" noon (noon + 1800))
    as (_ & Ht & _).
  - reflexivity.
  - reflexivity.
  - discriminate.
  - vm_compute. discriminate.
  - reflexivity.
  - intros e. vm_compute. discriminate.
  - reflexivity.
  - reflexivity.
  - reflexivity.
  - unfold noon. lia.
  - rewrite Ht. reflexivity.
Defined.

(** ** Batches *)

Lemma Put_bad (b : Bucket) (k : string) :
  ~ keyOK k -> exists e, Bolt.Put b k "1" = (b, Some e).
Proof.
  intros H. unfold Bolt.Put, keyOK in *.
  destruct (Z.eqb_spec (Z.of_nat (String.length k)) 0); [eauto|].
  destruct (Z.ltb_spec Bolt.MaxKeySize (Z.of_nat (String.length k))); [eauto|].
  exfalso. apply H. lia.
Qed.

Lemma keyOK_dec (k : string) : keyOK k \/ ~ keyOK k.
Proof.
  unfold keyOK.
  destruct (Nat.eq_dec (String.length k) 0);
    destruct (Z_le_dec (Z.of_nat (String.length k)) Bolt.MaxKeySize);
    [right|right|left|right]; lia.
Qed.

(** A line whose key [Put] refuses, and that is not in the bucket,
    makes the loop of [saveToDB] return an error. *)
Lemma putLines_rejects (ls : list string) :
  forall (b : Bucket) (l : string),
    In l ls ->
    ~ keyOK (Strings.TrimSpace l) ->
    Bolt.Get b (Strings.TrimSpace l) = "" ->
    exists b' e, putLines ls b = (b', Some e).
Proof.
  induction ls as [|l0 ls IH]; intros b l Hin Hbad Hget; [destruct Hin|].
  simpl.
  destruct (String.eqb_spec (Bolt.Get b (Strings.TrimSpace l0)) "") as [H0|H0].
  - destruct (keyOK_dec (Strings.TrimSpace l0)) as [Hok|Hno].
    + rewrite (Put_ok _ _ Hok).
      destruct Hin as [->|Hin]; [contradiction|].
      apply (IH _ l Hin Hbad). rewrite Get_insert_ne; [assumption|].
      intros E. rewrite E in Hok. contradiction.
    + destruct (Put_bad b _ Hno) as [e ->]. eauto.
  - destruct Hin as [->|Hin]; [contradiction|]. eauto.
Qed.

(** X8. A batch commit is all or nothing.  If [saveToDB] returns an
    error the database is as it was; if it returns none, every line of
    the batch is in the store.  A line that trims to a key the store
    refuses (empty, or longer than 32768 bytes) and is not in the store
    makes the whole batch fail, the acceptable lines too. *)
Theorem batch_commit_all_or_nothing (batch : list string) (w : World) :
  (fst (saveToDB batch w) <> None -> db (snd (saveToDB batch w)) = db w) /\
  (fst (saveToDB batch w) = None ->
   forall l, In l batch -> blacklisted_in (db (snd (saveToDB batch w))) l = true) /\
  (forall l, In l batch ->
             ~ keyOK (Strings.TrimSpace l) ->
             stored (db w) (Strings.TrimSpace l) = "" ->
             fst (saveToDB batch w) <> None /\
             db (snd (saveToDB batch w)) = db w).
Proof.
  split; [|split].
  - destruct (saveToDB_cases batch w) as [[e ->]|(b' & _ & ->)]; simpl;
      [reflexivity|contradiction].
  - destruct (saveToDB_cases batch w) as [[e ->]|(b' & Hp & ->)]; simpl;
      [discriminate|].
    intros _ l Hl. apply blacklisted_in_true. rewrite stored_insert.
    exact (putLines_stores _ _ _ Hp l Hl).
  - intros l Hl Hbad Hs. rewrite stored_bucket in Hs.
    destruct (putLines_rejects batch _ l Hl Hbad Hs) as (b1 & e1 & Hrej).
    destruct (saveToDB_cases batch w) as [[e ->]|(b' & Hp & _)]; simpl.
    + split; [discriminate|reflexivity].
    + rewrite Hp in Hrej. discriminate Hrej.
Qed.

Lemma batch_commit_all_or_nothing_witness :
  fst (saveToDB ["123456789"; "   "] sampleWorld) <> None /\
  db (snd (saveToDB ["123456789"; "   "] sampleWorld)) = db sampleWorld.
Proof.
  destruct (batch_commit_all_or_nothing ["123456789"; "   "] sampleWorld)
    as (_ & _ & H).
  apply (H "   ").
  - right. left. reflexivity.
  - vm_compute. intros [H0 _]. inversion H0.
  - reflexivity.
Defined.

(** ** The handlers: errors and what they leave alone *)

(** X9. The query handler answers a body that cannot be read with 400
    and the text of the error, without a lookup; it answers a storage
    error of the lookup with 500 and the text of the error, whether the
    transaction failed to begin or to end and whatever the store holds.
    Neither handler ever changes the store or the status. *)
Theorem handlers_errors_and_frame (req : Request) (w : World) :
  (forall e, Method req = MethodPost -> ReadErr req = Some e ->
             handlePassportValid req w
               = (http_Error (Error e) StatusBadRequest, w)) /\
  (forall e, validRequest req ->
             (head (faults w) = Some (Bolt.BeginFails e) \/
              head (faults w) = Some (Bolt.EndFails e)) ->
             fst (handlePassportValid req w)
               = http_Error (Error e) StatusInternalServerError) /\
  (db (snd (handlePassportValid req w)) = db w /\
   synced (snd (handlePassportValid req w)) = synced w /\
   trace (snd (handlePassportValid req w)) = trace w) /\
  (db (snd (kickstartUpdate w)) = db w /\
   synced (snd (kickstartUpdate w)) = synced w /\
   faults (snd (kickstartUpdate w)) = faults w).
Proof.
  split; [|split; [|split]].
  - intros e Hm Hr. unfold handlePassportValid.
    rewrite Hm, String.eqb_refl, Hr. reflexivity.
  - intros e (Hm & Hr & Hl) Hf. unfold handlePassportValid.
    rewrite Hm, String.eqb_refl, Hr. simpl.
    destruct (Nat.ltb_spec (String.length (Body req)) 9); [lia|].
    unfold mbind, M_bind, isBlacklisted. rewrite db_View_spec.
    destruct Hf as [-> | ->]; simpl; [reflexivity|].
    destruct (db w !! "passports") as [b|]; [|reflexivity].
    destruct (String.eqb _ ""); reflexivity.
  - unfold handlePassportValid.
    destruct (negb (String.eqb (Method req) MethodPost)); [simpl; auto|].
    destruct (ReadErr req); [simpl; auto|].
    destruct (Nat.ltb (String.length (Body req)) 9); [simpl; auto|].
    unfold mbind, M_bind.
    pose proof (isBlacklisted_db (Body req) w) as Hw.
    destruct (isBlacklisted (Body req) w) as [[bl err] w1]. simpl in Hw. subst w1.
    destruct err; [simpl; auto|]. destruct bl; simpl; auto.
  - unfold kickstartUpdate, recv_syncedStatus, send_syncedStatus,
      go_send_updateRequired, emit, mbind, M_bind.
    destruct (synced w) eqn:Hs; simpl; auto.
Qed.

Lemma handlers_errors_and_frame_witness :
  fst (handlePassportValid (query "123456789") failingRead)
    = http_Error (Error notOpen) StatusInternalServerError.
Proof.
  destruct (handlers_errors_and_frame (query "123456789") failingRead)
    as (_ & H & _).
  apply (H notOpen).
  - repeat split. simpl. lia.
  - left. reflexivity.
Defined.

(** ** The read loop and its buffer *)

Lemma scanByte_counters (c : ascii) (st : Loop) :
  savedLines st = List.length (lines st) ->
  savedLines (scanByte c st) = List.length (lines (scanByte c st)) /\
  savedLines (scanByte c st) <= S (savedLines st) /\
  linesRead (scanByte c st)
    = linesRead st + (if Ascii.eqb c newline then 1 else 0).
Proof.
  intros H. unfold scanByte. destruct (isDigit c) eqn:Hd.
  - rewrite (newline_not_digit c Hd). simpl. lia.
  - destruct (Ascii.eqb c newline); [|lia].
    destruct (String.eqb (line st) ""); simpl;
      rewrite ?List.length_app; simpl; lia.
Qed.

Lemma scan_line_eq (input : string) :
  forall st p, line st = line p -> line (scan input st) = line (scan input p).
Proof.
  induction input as [|c input IH]; intros st p H; [exact H|].
  simpl. apply IH. by destruct (scanByte_rel c st p H).
Qed.

(** The loop with its flushes against the loop without ([p]): what
    was flushed is a multiple of 1000 tokens, the buffer holds the
    rest, and the counters agree. *)
Lemma readLoop_buffer (input : string) :
  forall (st p : Loop) (w : World) (flushed : list string),
    line st = line p ->
    lines p = flushed ++ lines st ->
    (List.length flushed mod 1000 = 0)%nat ->
    savedLines st = List.length (lines st) ->
    savedLines st < 1000 ->
    exists flushed',
      lines (scan input p) = flushed' ++ lines (fst (readLoop input st w)) /\
      (List.length flushed' mod 1000 = 0)%nat /\
      savedLines (fst (readLoop input st w))
        = List.length (lines (fst (readLoop input st w))) /\
      savedLines (fst (readLoop input st w)) < 1000 /\
      linesRead (fst (readLoop input st w)) = linesRead st + newlines input /\
      line (fst (readLoop input st w)) = line (scan input p).
Proof.
  induction input as [|c input IH]; intros st p w flushed Hl Hp Hm Hs Hlt.
  - exists flushed. simpl. repeat split; auto.
  - cbn [readLoop scan newlines]. unfold mbind, M_bind.
    destruct (scanByte_rel c st p Hl) as [Hl1 Hrel].
    destruct (scanByte_counters c st Hs) as (Hs1 & Hle & Hr1).
    assert (Hp1 : lines (scanByte c p) = flushed ++ lines (scanByte c st)).
    { destruct Hrel as [[-> ->]|[-> ->]]; [assumption|].
      by rewrite Hp, <- List.app_assoc. }
    unfold flushFull.
    destruct (Nat.leb_spec 1000 (savedLines (scanByte c st))) as [Hfull|Hroom].
    + unfold mbind, M_bind.
      destruct (saveToDB (lines (scanByte c st)) w) as [e w1].
      unfold mret, M_ret.
      destruct (IH (mkLoop (line (scanByte c st)) [] (linesRead (scanByte c st)) 0)
                   (scanByte c p) w1 (flushed ++ lines (scanByte c st)))
        as (fl & H1 & H2 & H3 & H4 & H5 & H6).
      * exact Hl1.
      * by rewrite List.app_nil_r.
      * rewrite List.length_app, <- Hs1.
        replace (savedLines (scanByte c st)) with 1000 by lia.
        rewrite <- Nat.Div0.add_mod_idemp_l, Hm. reflexivity.
      * reflexivity.
      * simpl. lia.
      * exists fl. repeat split; auto.
        cbn [linesRead] in H5. rewrite H5, Hr1.
        destruct (Ascii.eqb c newline); lia.
    + unfold mret, M_ret.
      destruct (IH (scanByte c st) (scanByte c p) w flushed Hl1 Hp1 Hm Hs1 Hroom)
        as (fl & H1 & H2 & H3 & H4 & H5 & H6).
      exists fl. repeat split; auto.
      rewrite H5, Hr1. destruct (Ascii.eqb c newline); lia.
Qed.

Lemma commitBatches_cons (b : list string) (rest : list (list string)) (w : World) :
  snd (commitBatches (b :: rest) w) = snd (commitBatches rest (snd (saveToDB b w))).
Proof.
  cbn [commitBatches]. unfold mbind, M_bind.
  destruct (saveToDB b w) as [e w1]. reflexivity.
Qed.

(** The loop with its flushes against the loop without ([p]), from a
    point where [done] was flushed: from there on the loop commits
    batches of 1000 tokens each, one [saveToDB] per batch, and the
    tokens are those batches followed by the buffer. *)
Lemma readLoop_batches (input : string) :
  forall (st p : Loop) (w : World) (done : list string),
    line st = line p ->
    lines p = done ++ lines st ->
    savedLines st = List.length (lines st) ->
    savedLines st < 1000 ->
    exists batches,
      lines (scan input p)
        = done ++ concat batches ++ lines (fst (readLoop input st w)) /\
      Forall (fun b => List.length b = 1000) batches /\
      snd (readLoop input st w) = snd (commitBatches batches w).
Proof.
  induction input as [|c input IH]; intros st p w done Hl Hp Hs Hlt.
  - exists []. simpl. repeat split; auto.
  - cbn [readLoop scan]. unfold mbind, M_bind.
    destruct (scanByte_rel c st p Hl) as [Hl1 Hrel].
    destruct (scanByte_counters c st Hs) as (Hs1 & Hle & _).
    assert (Hp1 : lines (scanByte c p) = done ++ lines (scanByte c st)).
    { destruct Hrel as [[-> ->]|[-> ->]]; [assumption|].
      by rewrite Hp, <- List.app_assoc. }
    unfold flushFull.
    destruct (Nat.leb_spec 1000 (savedLines (scanByte c st))) as [Hfull|Hroom].
    + unfold mbind, M_bind.
      destruct (IH (mkLoop (line (scanByte c st)) [] (linesRead (scanByte c st)) 0)
                   (scanByte c p) (snd (saveToDB (lines (scanByte c st)) w))
                   (done ++ lines (scanByte c st)))
        as (bs & H1 & H2 & H3).
      * exact Hl1.
      * by rewrite List.app_nil_r.
      * reflexivity.
      * simpl. lia.
      * exists (lines (scanByte c st) :: bs). split; [|split].
        -- destruct (saveToDB (lines (scanByte c st)) w) as [e w1].
           unfold mret, M_ret. cbn [snd] in H1. rewrite H1. simpl.
           by rewrite <- !List.app_assoc.
        -- constructor; [lia|assumption].
        -- rewrite commitBatches_cons.
           destruct (saveToDB (lines (scanByte c st)) w) as [e w1].
           unfold mret, M_ret. exact H3.
    + unfold mret, M_ret.
      exact (IH (scanByte c st) (scanByte c p) w done Hl1 Hp1 Hs1 Hroom).
Qed.

(** X10. The read loop flushes its buffer to the store in batches of
    exactly 1000 tokens.  For every feed and every store, faults
    included, the tokens of the feed split into batches of 1000
    followed by the buffer the loop ends with, which holds fewer than
    1000; and the world after the loop is the world after one
    [saveToDB] per batch, in order, with nothing else done to it.  The
    count of records processed is the number of newline bytes read,
    blank lines and lines without digits included, and the pending
    token is the digits read since the last newline. *)
Theorem read_loop_commits_full_batches (input : string) (w : World) :
  exists batches,
    tokens input = concat batches ++ lines (fst (readLoop input Loop0 w)) /\
    Forall (fun b => List.length b = 1000) batches /\
    snd (readLoop input Loop0 w) = snd (commitBatches batches w) /\
    List.length (lines (fst (readLoop input Loop0 w))) < 1000 /\
    linesRead (fst (readLoop input Loop0 w)) = newlines input /\
    line (fst (readLoop input Loop0 w)) = pendingOf input.
Proof.
  destruct (readLoop_batches input Loop0 Loop0 w [] eq_refl eq_refl eq_refl)
    as (bs & H1 & H2 & H3); [simpl; lia|].
  destruct (readLoop_buffer input Loop0 Loop0 w [])
    as (fl & _ & _ & H4 & H5 & H6 & H7); try reflexivity; [simpl; lia|].
  exists bs. unfold tokens, pendingOf. rewrite <- H4. repeat split; auto.
Qed.

(** X11. Every token of a feed is a non-empty string of decimal
    digits; trimming leaves it as it is, so it is stored under
    itself; and it is a key the store accepts unless it is longer than
    32768 bytes. *)
Theorem tokens_are_digit_strings (input x : string) :
  In x (tokens input) ->
  digitsOnly x = true /\ x <> "" /\ Strings.TrimSpace x = x /\
  ((Z.of_nat (String.length x) <= Bolt.MaxKeySize)%Z -> keyOK (Strings.TrimSpace x)).
Proof.
  intros Hin. destruct (tokens_digits input x Hin) as [Hd Hne].
  repeat split; auto.
  - by apply TrimSpace_digits.
  - destruct (token_keyOK input x Hin H) as [H0 _]. exact H0.
  - destruct (token_keyOK input x Hin H) as [_ H1]. exact H1.
Qed.

Lemma tokens_are_digit_strings_witness :
  Strings.TrimSpace "1234" = "1234".
Proof.
  destruct (tokens_are_digit_strings mergedFeed "1234") as (_ & _ & H & _).
  - left. reflexivity.
  - exact H.
Defined.

(** ** A last line without its newline *)

Lemma append_String (c : ascii) (a b : string) :
  (String c a ++ b)%string = String c (a ++ b).
Proof. reflexivity. Qed.

Lemma readLoop_app (a b : string) :
  forall (st : Loop) (w : World),
    readLoop (a ++ b) st w
      = readLoop b (fst (readLoop a st w)) (snd (readLoop a st w)).
Proof.
  induction a as [|c a IH]; intros st w; [reflexivity|].
  rewrite append_String. cbn [readLoop]. unfold mbind, M_bind.
  destruct (flushFull (scanByte c st) w) as [st1 w1]. apply IH.
Qed.

Lemma scan_app (a b : string) :
  forall st, scan (a ++ b) st = scan b (scan a st).
Proof.
  induction a as [|c a IH]; intros st; [reflexivity|].
  rewrite append_String. simpl. apply IH.
Qed.

(** Bytes without a newline change the pending token only. *)
Lemma readLoop_tail (tail : string) :
  forall (st : Loop) (w : World),
    noNewline tail = true ->
    savedLines st < 1000 ->
    snd (readLoop tail st w) = w /\
    lines (fst (readLoop tail st w)) = lines st.
Proof.
  induction tail as [|c tail IH]; intros st w Hn Hlt; [split; reflexivity|].
  simpl in Hn. apply andb_true_iff in Hn as [Hc Hn].
  apply negb_true_iff in Hc.
  cbn [readLoop]. unfold mbind, M_bind, flushFull.
  assert (Hst : lines (scanByte c st) = lines st /\
                savedLines (scanByte c st) = savedLines st).
  { unfold scanByte. rewrite Hc. destruct (isDigit c); split; reflexivity. }
  destruct Hst as [Hls Hsv].
  destruct (Nat.leb_spec 1000 (savedLines (scanByte c st))); [lia|].
  unfold mret, M_ret. rewrite <- Hls. apply IH; [assumption|lia].
Qed.

Lemma scan_tail (tail : string) :
  forall st, noNewline tail = true -> lines (scan tail st) = lines st.
Proof.
  induction tail as [|c tail IH]; intros st Hn; [reflexivity|].
  simpl in Hn. apply andb_true_iff in Hn as [Hc Hn].
  apply negb_true_iff in Hc. simpl. rewrite (IH _ Hn).
  unfold scanByte. rewrite Hc. destruct (isDigit c); reflexivity.
Qed.

Lemma downloadUpdate_afterLoop (remote : Remote) (resp : Stream) (w : World) :
  http_Get remote = Ok resp ->
  downloadUpdate remote w =
    afterLoop (time_Now remote) (rdrErr resp)
      (lines (fst (readLoop (data resp) Loop0
                     (mkWorld (db w) (faults w) (synced w) (trace w ++ [Http_GET])))))
      (snd (readLoop (data resp) Loop0
              (mkWorld (db w) (faults w) (synced w) (trace w ++ [Http_GET])))).
Proof.
  intros Hg. unfold downloadUpdate, afterLoop. rewrite Hg.
  unfold mbind at 1, M_bind at 1, emit. cbv beta iota.
  unfold mbind at 1, M_bind at 1.
  destruct (readLoop (data resp) Loop0 _) as [st w2]. reflexivity.
Qed.

(** X12. Bytes after the last newline of a feed are never ingested: a
    stream that goes on after its last newline, with digits or
    anything else but a newline, yields the same tokens, and the
    pipeline run returns the same result and leaves the same world, as
    the stream without those bytes. *)
Theorem unterminated_last_line_is_dropped
        (remote remote' : Remote) (resp : Stream) (tail : string) (w : World) :
  http_Get remote = Ok resp ->
  http_Get remote' = Ok (mkStream (data resp ++ tail) (rdrErr resp)) ->
  time_Now remote' = time_Now remote ->
  noNewline tail = true ->
  tokens (data resp ++ tail) = tokens (data resp) /\
  downloadUpdate remote' w = downloadUpdate remote w.
Proof.
  intros Hg Hg' Hnow Hn. split.
  - unfold tokens. rewrite scan_app. by apply scan_tail.
  - rewrite (downloadUpdate_afterLoop remote resp w Hg).
    rewrite (downloadUpdate_afterLoop remote' _ w Hg').
    cbn [data rdrErr]. rewrite Hnow, readLoop_app.
    set (w1 := mkWorld (db w) (faults w) (synced w) (trace w ++ [Http_GET])).
    destruct (readLoop_buffer (data resp) Loop0 Loop0 w1 [])
      as (fl & _ & _ & _ & Hlt & _); try reflexivity; [simpl; lia|].
    destruct (readLoop_tail tail (fst (readLoop (data resp) Loop0 w1))
                            (snd (readLoop (data resp) Loop0 w1)) Hn Hlt)
      as [Hw Hl].
    by rewrite Hw, Hl.
Qed.

Lemma unterminated_last_line_is_dropped_witness :
  tokens (feedLine "123456789" ++ "987654321") = ["123456789"].
Proof.
  destruct (unterminated_last_line_is_dropped goodFeed
              (mkRemote None (Ok "Sat, 31 Oct 2026 12:00:00 GMT")
                        (Ok (mkStream (feedLine "123456789" ++ "987654321") io_EOF))
                        "Sat, 31 Oct 2026 12:30:00 UTC")
              (mkStream (feedLine "123456789") io_EOF) "987654321" sampleWorld)
    as [H _]; [reflexivity|reflexivity|reflexivity|reflexivity|exact H].
Defined.

(** ** The scheduler's pause *)

Lemma int64_small (z : Z) :
  (- 2 ^ 63 <= z < 2 ^ 63)%Z -> int64 z = z.
Proof.
  intros H. unfold int64. rewrite Z.mod_small; lia.
Qed.

Lemma int64_wrap_down (z : Z) :
  (2 ^ 63 <= z < 2 ^ 64 + 2 ^ 63)%Z -> int64 z = (z - 2 ^ 64)%Z.
Proof.
  intros H. unfold int64.
  replace (z + 2 ^ 63)%Z with ((z - 2 ^ 64 + 2 ^ 63) + 1 * 2 ^ 64)%Z by lia.
  rewrite Z.mod_add by lia. rewrite Z.mod_small; lia.
Qed.

(** X13. The pause of the scheduler between two signals, for a period
    given in hours as a 64-bit integer: from 1 to 2562047 hours it is
    the period; for a period of zero or a negative one down to
    -2562047 there is no pause; and from 2562048 to 5124095 hours the
    product overflows to a negative duration and there is no pause
    either. *)
Theorem scheduler_pause (period : Z) :
  ((1 <= period <= 2562047)%Z ->
   time_Sleep (sleepDuration period) = (period * time_Hour)%Z) /\
  ((-2562047 <= period <= 0)%Z ->
   time_Sleep (sleepDuration period) = 0%Z) /\
  ((2562048 <= period <= 5124095)%Z ->
   time_Sleep (sleepDuration period) = 0%Z).
Proof.
  unfold time_Sleep, sleepDuration.
  assert (HH : int64 time_Hour = time_Hour)
    by (apply int64_small; unfold time_Hour; lia).
  rewrite HH. unfold time_Hour. split; [|split]; intros H.
  - rewrite (int64_small period) by lia. rewrite int64_small by lia. lia.
  - rewrite (int64_small period) by lia. rewrite int64_small by lia. lia.
  - rewrite (int64_small period) by lia. rewrite int64_wrap_down by lia. lia.
Qed.

Lemma scheduler_pause_witness :
  time_Sleep (sleepDuration 24) = (24 * time_Hour)%Z /\
  time_Sleep (sleepDuration 2562048) = 0%Z.
Proof.
  split.
  - destruct (scheduler_pause 24) as (H & _). apply H. lia.
  - destruct (scheduler_pause 2562048) as (_ & _ & H). apply H. lia.
Defined.

(** ** Padded identifiers *)

Lemma firstStrip_asciiSpace (c : ascii) (r : string) :
  asciiSpace c = true ->
  Strings.firstStrip Strings.spaceRunes (String c r) = Some r /\
  Strings.firstStrip (map Strings.reverse Strings.spaceRunes) (String c r) = Some r.
Proof.
  destruct c as [b0 b1 b2 b3 b4 b5 b6 b7].
  destruct b0, b1, b2, b3, b4, b5, b6, b7; intros H;
    try discriminate H; split; reflexivity.
Qed.

Lemma string_length_app (a b : string) :
  String.length (a ++ b) = String.length a + String.length b.
Proof.
  induction a as [|c a IH]; [reflexivity|].
  rewrite append_String. simpl. by rewrite IH.
Qed.

(** Leading ASCII spaces before a digit are stripped, by either list
    of encodings, and the digit stops the stripping. *)
Lemma trimLeftRunes_pad (rs : list string) :
  (forall c r, asciiSpace c = true -> Strings.firstStrip rs (String c r) = Some r) ->
  (forall c r, isDigit c = true -> Strings.firstStrip rs (String c r) = None) ->
  forall (pre : string) (n : nat) (c : ascii) (r : string),
    spacesOnly pre = true ->
    isDigit c = true ->
    String.length pre <= n ->
    Strings.trimLeftRunes rs n (pre ++ String c r) = String c r.
Proof.
  intros Hsp Hdg. induction pre as [|a pre IH]; intros n c r Hs Hd Hn.
  - change ("" ++ String c r)%string with (String c r).
    destruct n; [reflexivity|]. simpl. by rewrite (Hdg c r Hd).
  - simpl in Hs. apply andb_true_iff in Hs as [Ha Hs].
    destruct n; [simpl in Hn; lia|].
    rewrite append_String. cbn [Strings.trimLeftRunes].
    rewrite (Hsp a _ Ha). apply IH; auto. simpl in Hn. lia.
Qed.

Lemma list_ascii_app (a b : string) :
  list_ascii_of_string (a ++ b)
    = list_ascii_of_string a ++ list_ascii_of_string b.
Proof.
  induction a as [|c a IH]; [reflexivity|].
  rewrite append_String. simpl. by rewrite IH.
Qed.

Lemma string_of_list_app (l1 l2 : list ascii) :
  string_of_list_ascii (l1 ++ l2)
    = (string_of_list_ascii l1 ++ string_of_list_ascii l2)%string.
Proof.
  induction l1 as [|c l1 IH]; [reflexivity|].
  simpl. rewrite append_String. by rewrite IH.
Qed.

Lemma reverse_app (a b : string) :
  Strings.reverse (a ++ b) = (Strings.reverse b ++ Strings.reverse a)%string.
Proof.
  unfold Strings.reverse.
  by rewrite list_ascii_app, List.rev_app_distr, string_of_list_app.
Qed.

Lemma reverse_involutive (s : string) : Strings.reverse (Strings.reverse s) = s.
Proof.
  unfold Strings.reverse.
  rewrite list_ascii_of_string_of_list_ascii, List.rev_involutive.
  apply string_of_list_ascii_of_string.
Qed.

Lemma reverse_length (s : string) :
  String.length (Strings.reverse s) = String.length s.
Proof.
  unfold Strings.reverse.
  assert (H : forall l, String.length (string_of_list_ascii l) = List.length l)
    by (induction l as [|c l IH]; simpl; congruence).
  assert (H' : forall t, List.length (list_ascii_of_string t) = String.length t)
    by (induction t as [|c t IH]; simpl; congruence).
  by rewrite H, List.length_rev, H'.
Qed.

Lemma spacesOnly_list (s : string) :
  spacesOnly s = true <->
  Forall (fun c => asciiSpace c = true) (list_ascii_of_string s).
Proof.
  induction s as [|c s IH]; simpl.
  - split; [constructor|reflexivity].
  - rewrite andb_true_iff, IH. split.
    + intros [? ?]. by constructor.
    + intros H. by inversion H.
Qed.

Lemma reverse_spaces (s : string) :
  spacesOnly s = true -> spacesOnly (Strings.reverse s) = true.
Proof.
  intros H. apply spacesOnly_list. unfold Strings.reverse.
  rewrite list_ascii_of_string_of_list_ascii. apply Forall_rev.
  by apply spacesOnly_list.
Qed.

Lemma reverse_digits (s : string) :
  digitsOnly s = true -> s <> "" ->
  exists c r, Strings.reverse s = String c r /\ isDigit c = true.
Proof.
  intros Hd Hne. apply digitsOnly_list in Hd. apply Forall_rev in Hd.
  unfold Strings.reverse.
  destruct (List.rev (list_ascii_of_string s)) as [|c l] eqn:Hr.
  - exfalso. apply Hne. apply (f_equal (@List.length ascii)) in Hr.
    rewrite List.length_rev in Hr. destruct s; [reflexivity|discriminate Hr].
  - inversion Hd; subst. exists c, (string_of_list_ascii l). split; [reflexivity|assumption].
Qed.

Lemma trimLeft_pad (pre : string) (n : nat) (c : ascii) (r : string) :
  spacesOnly pre = true -> isDigit c = true -> String.length pre <= n ->
  Strings.trimLeftRunes Strings.spaceRunes n (pre ++ String c r) = String c r.
Proof.
  apply (trimLeftRunes_pad Strings.spaceRunes).
  - intros a s Ha. exact (proj1 (firstStrip_asciiSpace a s Ha)).
  - intros a s Ha. exact (proj1 (firstStrip_digit a s Ha)).
Qed.

Lemma trimRight_pad (pre : string) (n : nat) (c : ascii) (r : string) :
  spacesOnly pre = true -> isDigit c = true -> String.length pre <= n ->
  Strings.trimLeftRunes (map Strings.reverse Strings.spaceRunes) n
                        (pre ++ String c r) = String c r.
Proof.
  apply (trimLeftRunes_pad (map Strings.reverse Strings.spaceRunes)).
  - intros a s Ha. exact (proj2 (firstStrip_asciiSpace a s Ha)).
  - intros a s Ha. exact (proj2 (firstStrip_digit a s Ha)).
Qed.

(** Trimming takes ASCII spaces on both sides of a string of digits
    away and nothing else. *)
Lemma TrimSpace_padded (pre id post : string) :
  spacesOnly pre = true -> spacesOnly post = true ->
  digitsOnly id = true -> id <> "" ->
  Strings.TrimSpace (pre ++ id ++ post) = id.
Proof.
  intros Hpre Hpost Hd Hne. unfold Strings.TrimSpace.
  assert (HL : Strings.TrimLeft (pre ++ id ++ post) = (id ++ post)%string).
  { unfold Strings.TrimLeft. destruct id as [|c r]; [contradiction|].
    rewrite append_String. cbn [digitsOnly] in Hd.
    apply andb_true_iff in Hd as [Hc _].
    apply (trimLeft_pad pre _ c (r ++ post) Hpre Hc).
    rewrite string_length_app. lia. }
  rewrite HL. unfold Strings.TrimRight. rewrite reverse_app.
  destruct (reverse_digits id Hd Hne) as (c & r & Hr & Hc).
  rewrite Hr.
  rewrite (trimRight_pad (Strings.reverse post) _ c r
             (reverse_spaces post Hpost) Hc).
  - by rewrite <- Hr, reverse_involutive.
  - rewrite reverse_length, string_length_app. lia.
Qed.

(** X14. An identifier of at least 9 digits with ASCII white space
    (space, tab, newline, vertical tab, form feed, carriage return)
    around it is answered as the identifier itself: the same response
    and the same world, whatever the store and its faults. *)
Theorem padded_identifier_same_answer (pre id post : string) (w : World) :
  spacesOnly pre = true -> spacesOnly post = true ->
  digitsOnly id = true -> 9 <= String.length id ->
  handlePassportValid (query (pre ++ id ++ post)) w
    = handlePassportValid (query id) w.
Proof.
  intros Hpre Hpost Hd Hlen.
  assert (Hne : id <> "") by (intros ->; simpl in Hlen; lia).
  unfold handlePassportValid, query. cbn [Method Body ReadErr].
  destruct (negb (String.eqb "POST" MethodPost)); [reflexivity|].
  destruct (Nat.ltb_spec (String.length (pre ++ id ++ post)) 9) as [H|_].
  { rewrite !string_length_app in H. lia. }
  destruct (Nat.ltb_spec (String.length id) 9) as [H|_]; [lia|].
  unfold isBlacklisted.
  by rewrite (TrimSpace_padded pre id post Hpre Hpost Hd Hne), (TrimSpace_digits id Hd).
Qed.

Lemma padded_identifier_same_answer_witness :
  handlePassportValid (query ("  " ++ "123456789" ++ String newline ""))
                      (storeWith "123456789")
    = handlePassportValid (query "123456789") (storeWith "123456789").
Proof.
  apply (padded_identifier_same_answer "  " "123456789" (String newline "")
           (storeWith "123456789"));
    [reflexivity|reflexivity|reflexivity|simpl; lia].
Defined.

(** ** A refresh from probe to status *)

Lemma remoteUpdated_spec (Parse : string -> string -> result Z)
      (remoteTime : Z) (w : World) :
  remoteUpdated Parse remoteTime w =
    (match Parse Time.RFC1123 (timestampRead w) with
     | Fail e => (true, Some e)
     | Ok u => (Time.After remoteTime u, None)
     end, afterTx w).
Proof.
  unfold remoteUpdated, timestampRead, comparedWith, lastUpdated.
  unfold mbind, M_bind. rewrite db_View_spec.
  destruct (head (faults w)) as [[| |]|]; simpl;
    destruct (db w !! "ustatus") as [b|]; simpl;
    try destruct (String.eqb (Bolt.Get b "updated") "");
    match goal with |- context [Parse ?l ?v] => destruct (Parse l v) end;
    try reflexivity;
    match goal with |- context [Time.After ?a ?b] => destruct (Time.After a b) end;
    reflexivity.
Qed.

(** When the check says outdated, [performUpdate] is a download
    between [startDownload] and [finishDownload]. *)
Lemma performUpdate_downloads (Parse : string -> string -> result Z)
      (remote : Remote) (w : World) (hdr : string) (t u : Z) :
  http_NewRequest remote = None ->
  http_Head remote = Ok hdr ->
  Parse Time.RFC1123 (Strings.TrimSpace hdr) = Ok t ->
  Parse Time.RFC1123 (timestampRead w) = Ok u ->
  (u < t)%Z ->
  snd (performUpdate Parse remote w)
    = finishDownload (downloadUpdate remote (startDownload w)).
Proof.
  intros Hn Hh Hp Hu Hlt.
  destruct (performUpdate Parse remote w) as [[] w'] eqn:Hrun.
  unfold performUpdate in Hrun. rewrite Hn, Hh, Hp in Hrun.
  unfold mbind at 1, M_bind at 1, emit in Hrun. cbv beta iota in Hrun.
  unfold mbind at 1, M_bind at 1 in Hrun.
  rewrite remoteUpdated_spec in Hrun.
  change (timestampRead _) with (timestampRead w) in Hrun.
  rewrite Hu in Hrun.
  assert (Haf : Time.After t u = true) by (apply Z.ltb_lt; exact Hlt).
  rewrite Haf in Hrun. cbn [notNil orb] in Hrun.
  unfold mbind at 1, M_bind at 1, send_lastStatus at 1 in Hrun.
  cbv beta iota in Hrun. unfold afterTx in Hrun.
  cbn [db faults synced trace] in Hrun.
  rewrite <- List.app_assoc in Hrun. simpl in Hrun.
  unfold startDownload, finishDownload.
  unfold mbind at 1, M_bind at 1 in Hrun.
  destruct (downloadUpdate remote _) as [[success err] w3].
  destruct (notNil err || negb success)%bool.
  - unfold mbind, M_bind, send_lastStatus, go_send_updateRequired, emit in Hrun.
    inversion Hrun. simpl. by rewrite <- List.app_assoc.
  - unfold send_lastStatus in Hrun. inversion Hrun. reflexivity.
Qed.

(** X15. A refresh from probe to status, on a store without faults
    and with a feed modified after the time the check compares with:
    every token of the feed is in the store afterwards.  If the stream
    was read to its end, the status is [ready], the timestamp is the
    clock reading of the run and no retry signal is handed over.  If
    the stream ended with an error, the status is [failed], the
    timestamp is what it was and one retry signal is handed over. *)
Theorem refresh_end_to_end (Parse : string -> string -> result Z)
        (remote : Remote) (resp : Stream) (w : World) (hdr : string) (t u : Z) :
  faults w = [] ->
  http_NewRequest remote = None ->
  http_Head remote = Ok hdr ->
  Parse Time.RFC1123 (Strings.TrimSpace hdr) = Ok t ->
  Parse Time.RFC1123 (comparedWith (db w)) = Ok u ->
  (u < t)%Z ->
  http_Get remote = Ok resp ->
  (forall x, In x (tokens (data resp)) ->
             (Z.of_nat (String.length x) <= Bolt.MaxKeySize)%Z) ->
  (Z.of_nat (String.length (time_Now remote)) <= Bolt.MaxValueSize)%Z ->
  (forall x, In x (tokens (data resp)) ->
             blacklisted_in (db (snd (performUpdate Parse remote w))) x = true) /\
  (is_EOF (rdrErr resp) = true ->
   synced (snd (performUpdate Parse remote w)) = ready /\
   lastUpdated (db (snd (performUpdate Parse remote w))) = time_Now remote /\
   signals (trace (snd (performUpdate Parse remote w))) = signals (trace w)) /\
  (is_EOF (rdrErr resp) = false ->
   synced (snd (performUpdate Parse remote w)) = failed /\
   lastUpdated (db (snd (performUpdate Parse remote w))) = lastUpdated (db w) /\
   signals (trace (snd (performUpdate Parse remote w))) = S (signals (trace w))).
Proof.
  intros Hf Hn Hh Hp Hu Hlt Hg Hsz Hnow.
  assert (Hu' : Parse Time.RFC1123 (timestampRead w) = Ok u)
    by (unfold timestampRead; rewrite Hf; exact Hu).
  rewrite (performUpdate_downloads Parse remote w hdr t u Hn Hh Hp Hu' Hlt).
  destruct (downloadUpdate_timestamp remote (startDownload w) Hnow) as [Hts Htf].
  unfold startDownload in *. rewrite Hf in *. cbn [tail] in *.
  destruct (downloadUpdate_healthy remote resp (db w) processing
              (trace w ++ [Http_HEAD; Send_lastStatus processing]) Hg Hsz)
    as (d' & Hrun & Hin & _).
  rewrite Hrun in *. cbn [fst snd db] in *.
  destruct (is_EOF (rdrErr resp)); cbn [finishDownload notNil negb orb db synced trace].
  - split; [exact Hin|]. split; [|discriminate].
    intros _. split; [reflexivity|]. split; [by apply Hts|].
    rewrite !signals_app. cbn. lia.
  - split; [exact Hin|]. split; [discriminate|].
    intros _. split; [reflexivity|]. split; [apply Htf; discriminate|].
    rewrite !signals_app. cbn. lia.
Qed.

Lemma refresh_end_to_end_witness :
  blacklisted_in (db (snd (performUpdate Time.Parse goodFeed sampleWorld)))
                 "123456789" = true /\
  synced (snd (performUpdate Time.Parse goodFeed sampleWorld)) = ready.
Proof.
  destruct (refresh_end_to_end Time.Parse goodFeed
              (mkStream (feedLine "123456789") io_EOF) sampleWorld
              "Sat, 31 Oct 2026 12:00:00 GMT" noon 1136214245)
    as (H1 & H2 & _).
  - reflexivity.
  - reflexivity.
  - reflexivity.
  - reflexivity.
  - reflexivity.
  - reflexivity.
  - reflexivity.
  - intros x [<-|[]]. vm_compute. discriminate.
  - vm_compute. discriminate.
  - split; [apply H1; left; reflexivity|apply H2; reflexivity].
Defined.

(** ** Ingesting a feed again *)

Lemma saveToDB_present (ls : list string) (w : World) :
  (forall l, In l ls -> blacklisted_in (db w) l = true) ->
  forall k, stored (db (snd (saveToDB ls w))) k = stored (db w) k.
Proof.
  intros H k.
  destruct (saveToDB_cases ls w) as [[e ->]|(b' & Hp & ->)]; simpl;
    [reflexivity|].
  rewrite putLines_noop in Hp.
  - inversion Hp; subst b'. by rewrite stored_insert, <- stored_bucket.
  - intros l Hl. rewrite <- stored_bucket. apply blacklisted_in_true. by apply H.
Qed.

Lemma blacklisted_in_same (d d' : DB) :
  (forall k, stored d' k = stored d k) ->
  forall x, blacklisted_in d' x = blacklisted_in d x.
Proof. intros H x. unfold blacklisted_in. by rewrite H. Qed.

Lemma readLoop_present (input : string) :
  forall (st p : Loop) (w : World),
    line st = line p ->
    incl (lines st) (lines p) ->
    (forall x, In x (lines (scan input p)) -> blacklisted_in (db w) x = true) ->
    incl (lines (fst (readLoop input st w))) (lines (scan input p)) /\
    forall k, stored (db (snd (readLoop input st w))) k = stored (db w) k.
Proof.
  induction input as [|c input IH]; intros st p w Hl Hi Hall.
  - simpl. split; [assumption|reflexivity].
  - cbn [readLoop scan] in *. unfold mbind, M_bind.
    destruct (scanByte_rel c st p Hl) as [Hl1 Hrel].
    assert (Hi1 : incl (lines (scanByte c st)) (lines (scanByte c p))).
    { destruct Hrel as [[-> ->]|[-> ->]]; [assumption|].
      apply incl_app; [by apply incl_appl|apply incl_appr, incl_refl]. }
    unfold flushFull.
    destruct (Nat.leb 1000 (savedLines (scanByte c st))).
    + unfold mbind, M_bind.
      assert (Hsame : forall k,
                stored (db (snd (saveToDB (lines (scanByte c st)) w))) k
                  = stored (db w) k).
      { apply saveToDB_present. intros l Hlin. apply Hall.
        apply (scan_incl input). by apply Hi1. }
      destruct (saveToDB (lines (scanByte c st)) w) as [e w1]. simpl in Hsame.
      unfold mret, M_ret.
      destruct (IH (mkLoop (line (scanByte c st)) [] (linesRead (scanByte c st)) 0)
                   (scanByte c p) w1 Hl1) as [H1 H2].
      * intros x [].
      * intros x Hx. rewrite (blacklisted_in_same _ _ Hsame). by apply Hall.
      * split; [exact H1|]. intros k. by rewrite H2.
    + unfold mret, M_ret. by apply IH.
Qed.

(** X16. Ingesting a feed whose tokens are all in the store changes no
    entry of the store, whatever storage faults occur and however the
    stream ends: what a lookup finds under any key is the same after
    the run as before. *)
Theorem reingest_changes_no_entry (remote : Remote) (resp : Stream) (w : World) :
  http_Get remote = Ok resp ->
  (forall x, In x (tokens (data resp)) -> blacklisted_in (db w) x = true) ->
  forall k, stored (db (snd (downloadUpdate remote w))) k = stored (db w) k.
Proof.
  intros Hg Hall k.
  rewrite (downloadUpdate_afterLoop remote resp w Hg).
  set (w1 := mkWorld (db w) (faults w) (synced w) (trace w ++ [Http_GET])).
  destruct (readLoop_present (data resp) Loop0 Loop0 w1 eq_refl (incl_refl _) Hall)
    as [Hi Hsame].
  destruct (readLoop (data resp) Loop0 w1) as [st w2]. cbn [fst snd] in *.
  change (stored (db w) k) with (stored (db w1) k). rewrite <- Hsame.
  unfold afterLoop. unfold mbind at 1, M_bind at 1.
  assert (Hfin : forall k,
    stored (db (snd ((if Nat.ltb 0 (List.length (lines st))
                      then saveToDB (lines st) else mret None) w2))) k
      = stored (db w2) k).
  { destruct (Nat.ltb 0 (List.length (lines st))); [|reflexivity].
    apply saveToDB_present. intros l Hl.
    rewrite (blacklisted_in_same _ _ Hsame). apply Hall. by apply Hi. }
  destruct ((if Nat.ltb 0 (List.length (lines st))
             then saveToDB (lines st) else mret None) w2) as [e w3].
  simpl in Hfin. rewrite <- Hfin.
  destruct e as [e|]; [reflexivity|].
  destruct (is_EOF (rdrErr resp)); simpl; [|reflexivity].
  unfold mbind, M_bind.
  destruct (setLastUpdated_cases (time_Now remote) w3) as [[e He]|He];
    rewrite He; simpl; [reflexivity|].
  by rewrite stored_other_bucket.
Qed.

Lemma reingest_changes_no_entry_witness :
  stored (db (snd (downloadUpdate goodFeed (storeWith "123456789")))) "123456789"
    = "1".
Proof.
  rewrite (reingest_changes_no_entry goodFeed
             (mkStream (feedLine "123456789") io_EOF) (storeWith "123456789")).
  - reflexivity.
  - reflexivity.
  - intros x [<-|[]]. reflexivity.
Defined.
